(** * The DuckDB HTTP client extension: request dispatch

    A shallow embedding of [src/http_client_extension.cpp]: the URL
    decomposition and client set-up of [SetupHttpClient], the error
    classification of [HandleHttpError], and the per-row lambdas of
    [HTTPGetRequestFunction] and [HTTPPostRequestFunction] with the header
    block parsing done inside the latter.

    [std::string] values are [string]s (sequences of 8-bit characters),
    [size_t] values are integers with [npos = 2^64 - 1] and wrap-around
    addition, C++ exceptions are the [Throw] outcome of a small error monad,
    and the HTTP transport is a parameter that maps a configured client and
    a request to a result while threading a state. The header container is
    an interface, with the transport library's multimap as its instance. *)

From Stdlib Require Import ZArith List String Ascii Bool Lia.
From Stdlib Require Import Permutation Sorted DecimalString DecimalPos DecimalZ.
Import ListNotations.

Local Open Scope string_scope.
Local Open Scope Z_scope.

(** ** Exceptions and the error monad *)

(** The exception classes the code can raise: [std::runtime_error] (thrown by
    the extension itself) and [std::out_of_range] (thrown by
    [std::string::substr] and [std::string::erase] when the position exceeds
    the size). *)
Inductive exn : Type :=
| runtime_error (what : string)
| out_of_range (what : string).

Inductive outcome (A : Type) : Type :=
| Return (a : A)
| Throw (e : exn).

Arguments Return {A} a.
Arguments Throw {A} e.

Definition obind {A B : Type} (c : outcome A) (k : A -> outcome B) : outcome B :=
  match c with
  | Return a => k a
  | Throw e => Throw e
  end.

Declare Scope exc_scope.
Delimit Scope exc_scope with exc.
Notation "x <- c ;; k" := (obind c (fun x => k))
  (at level 61, c at next level, right associativity) : exc_scope.

(** ** The parts of [std::string] the extension uses *)

Module StdString.

(** [std::string::npos], the largest [size_t]. *)
Definition npos : Z := 2 ^ 64 - 1.

(** Addition on [size_t] wraps around. *)
Definition size_add (a b : Z) : Z := (a + b) mod 2 ^ 64.

Definition size (s : string) : Z := Z.of_nat (String.length s).

Fixpoint take (n : nat) (s : string) : string :=
  match n, s with
  | S n', String c r => String c (take n' r)
  | _, _ => ""
  end.

Fixpoint drop (n : nat) (s : string) : string :=
  match n, s with
  | S n', String _ r => drop n' r
  | _, _ => s
  end.

(** Index of the first occurrence of [pat] in [s], if any. *)
Fixpoint first_occurrence (pat s : string) : option nat :=
  if prefix pat s then Some 0%nat
  else match s with
       | "" => None
       | String _ r => option_map S (first_occurrence pat r)
       end.

Definition pos_of (o : option nat) : Z :=
  match o with
  | Some i => Z.of_nat i
  | None => npos
  end.

(** [s.find(pat)]: position of the first occurrence, [npos] if none. *)
Definition find (s pat : string) : Z := pos_of (first_occurrence pat s).

(** [s.find(ch)] is [s.find(std::string(1, ch))]. *)
Definition find_char (s : string) (ch : ascii) : Z := find s (String ch "").

(** [s.substr(pos, n)]: throws when [pos > size()], otherwise the
    [min(n, size() - pos)] characters starting at [pos]. *)
Definition substr (s : string) (pos n : Z) : outcome string :=
  if size s <? pos then Throw (out_of_range "basic_string::substr")
  else Return (take (Z.to_nat (Z.min n (size s - pos))) (drop (Z.to_nat pos) s)).

(** [s.erase(pos, n)]: throws when [pos > size()], otherwise removes the
    [min(n, size() - pos)] characters starting at [pos]. *)
Definition erase (s : string) (pos n : Z) : outcome string :=
  if size s <? pos then Throw (out_of_range "basic_string::erase")
  else Return (take (Z.to_nat pos) s
               ++ drop (Z.to_nat (pos + Z.min n (size s - pos))) s)%string.

Fixpoint mem (c : ascii) (chars : string) : bool :=
  match chars with
  | "" => false
  | String d r => Ascii.eqb c d || mem c r
  end.

Fixpoint first_not_of (chars s : string) : option nat :=
  match s with
  | "" => None
  | String c r =>
      if mem c chars then option_map S (first_not_of chars r) else Some 0%nat
  end.

Fixpoint last_not_of (chars s : string) : option nat :=
  match s with
  | "" => None
  | String c r =>
      match last_not_of chars r with
      | Some i => Some (S i)
      | None => if mem c chars then None else Some 0%nat
      end
  end.

(** [s.find_first_not_of(chars)] and [s.find_last_not_of(chars)]. *)
Definition find_first_not_of (s chars : string) : Z :=
  pos_of (first_not_of chars s).

Definition find_last_not_of (s chars : string) : Z :=
  pos_of (last_not_of chars s).

(** [std::string(s.c_str())]: the characters before the first NUL. *)
Fixpoint c_str (s : string) : string :=
  match s with
  | "" => ""
  | String c r => if Ascii.eqb c zero then "" else String c (c_str r)
  end.

(** [std::to_string(int)]: decimal digits, with a leading minus sign for
    negative numbers. *)
Definition to_string (n : Z) : string := NilZero.string_of_int (Z.to_int n).

(** One [std::getline] on a string stream whose unread characters are
    [s]: the characters before the first newline and what follows it. *)
Fixpoint getline_split (s : string) : string * string :=
  match s with
  | "" => ("", "")
  | String c r =>
      if Ascii.eqb c "010" then ("", r)
      else let (l, r') := getline_split r in (String c l, r')
  end.

(** [std::getline(stream, line)] fails exactly when nothing is left to
    read; otherwise it stores the line and consumes the delimiter. *)
Definition getline (stream : string) : option (string * string) :=
  match stream with
  | "" => None
  | _ => Some (getline_split stream)
  end.

End StdString.

Import StdString.

(** ** The transport library's interface *)

(** [duckdb_httplib_openssl::Error], as far as the extension distinguishes
    its enumerators: the eleven that [HandleHttpError] names, and
    [OtherError code] for an enumerator that is none of them (Success,
    Unknown, and whatever else the library declares), [code] being its
    numeric value. *)
Inductive Error : Type :=
| Connection
| BindIPAddress
| Read
| Write
| ExceedRedirectCount
| Canceled
| SSLConnection
| SSLLoadingCerts
| SSLServerVerification
| UnsupportedMultipartBoundaryChars
| Compression
| OtherError (code : Z).

(** [duckdb_httplib_openssl::Response], the fields the extension reads. *)
Module Response.
Record t : Type := mk {
  status : Z;
  reason : string;
  body : string
}.
End Response.

(** [duckdb_httplib_openssl::Result]: a possibly null response and an error
    code; [if (res)] tests the response. *)
Record Result : Type := mkResult {
  res_response : option Response.t;
  res_error : Error
}.

(** What the extension uses of the header container
    [duckdb_httplib_openssl::Headers], a type the transport library declares:
    the default-constructed container, [emplace], and the iteration the
    transport performs over the entries it is given. *)
Class HeaderContainer (H : Type) : Type := {
  no_headers : H;
  emplace : string -> string -> H -> H;
  entries : H -> list (string * string)
}.

(** [tolower] in the "C" locale. *)
Definition tolower (c : ascii) : N :=
  let n := N_of_ascii c in
  if ((65 <=? n) && (n <=? 90))%N then (n + 32)%N else n.

(** The comparator of the header container: [std::lexicographical_compare]
    on the lower-cased characters. *)
Fixpoint ci_less (s1 s2 : string) : bool :=
  match s1, s2 with
  | _, "" => false
  | "", String _ _ => true
  | String a r1, String b r2 =>
      if (tolower a <? tolower b)%N then true
      else if (tolower b <? tolower a)%N then false
      else ci_less r1 r2
  end.

(** A [std::multimap<std::string, std::string, detail::ci>] is the sequence
    of its entries in iteration order, kept sorted by the comparator. *)
Definition Multimap : Type := list (string * string).

(** [m.emplace(key, value)]: a multimap inserts the new entry at the upper
    bound of its key, that is before the first entry whose key is greater
    and after every entry whose key is equivalent. *)
Fixpoint multimap_emplace (key value : string) (m : Multimap) : Multimap :=
  match m with
  | [] => [(key, value)]
  | (k, v) :: r =>
      if ci_less key k then (key, value) :: (k, v) :: r
      else (k, v) :: multimap_emplace key value r
  end.

(** The transport library declares
    [using Headers = std::multimap<std::string, std::string, detail::ci>]. *)
#[export] Instance Headers : HeaderContainer Multimap := {
  no_headers := [];
  emplace := multimap_emplace;
  entries := fun m => m
}.

(** The client object: the host it was constructed with and the two
    settings the extension touches. [None] is a setting left at the
    library's default. *)
Record Client : Type := mkClient {
  host : string;
  read_timeout : option (Z * Z);
  follow_location : option bool
}.

Definition Client_new (scheme_host_port : string) : Client :=
  {| host := scheme_host_port; read_timeout := None; follow_location := None |}.

Definition set_read_timeout (sec usec : Z) (c : Client) : Client :=
  {| host := host c; read_timeout := Some (sec, usec);
     follow_location := follow_location c |}.

Definition set_follow_location (on : bool) (c : Client) : Client :=
  {| host := host c; read_timeout := read_timeout c;
     follow_location := Some on |}.

(** The two request entry points used: [client.Get(path)] and
    [client.Post(path, headers, body, content_type)]. *)
Inductive Request (H : Type) : Type :=
| Get (path : string)
| Post (path : string) (headers : H) (body : string) (content_type : string).

Arguments Get {H} path.
Arguments Post {H} path headers body content_type.

(** ** [SetupHttpClient] *)

(** The string part of [SetupHttpClient]: the locals [domain] and [path]. *)
Definition decompose (url : string) : outcome (string * string) :=
  (let pos := find url "://" in
   let mod_url := url in
   mod_url <- (if negb (pos =? npos)
               then (_scheme <- substr mod_url 0 pos ;;
                     erase mod_url 0 (size_add pos 3))
               else Return mod_url) ;;
   let pos := find mod_url "/" in
   if negb (pos =? npos)
   then (domain <- substr mod_url 0 pos ;;
         path <- substr mod_url pos npos ;;
         Return (domain, path))
   else Return (mod_url, "/"))%exc.

Definition SetupHttpClient (url : string) : outcome (Client * string) :=
  (dp <- decompose url ;;
   let client := Client_new (c_str (fst dp)) in
   let client := set_read_timeout 10 0 client in
   let client := set_follow_location true client in
   Return (client, snd dp))%exc.

(** ** [HandleHttpError] *)

(** The message appended by the switch over [res.error()]. *)
Definition error_text (e : Error) : string :=
  match e with
  | Connection => "Connection error."
  | BindIPAddress => "Failed to bind IP address."
  | Read => "Error reading response."
  | Write => "Error writing request."
  | ExceedRedirectCount => "Too many redirects."
  | Canceled => "Request was canceled."
  | SSLConnection => "SSL connection failed."
  | SSLLoadingCerts => "Failed to load SSL certificates."
  | SSLServerVerification => "SSL server verification failed."
  | UnsupportedMultipartBoundaryChars =>
      "Unsupported characters in multipart boundary."
  | Compression => "Error during compression."
  | OtherError _ => "Unknown error."
  end.

(** A [void] function: [Return tt] would be a normal return. *)
Definition HandleHttpError (res : Result) (request_type : string)
  : outcome unit :=
  let err_message := ("HTTP " ++ request_type ++ " request failed. ")%string in
  let err_message := (err_message ++ error_text (res_error res))%string in
  Throw (runtime_error err_message).

(** ** Header block parsing *)

(** The body of the [while] loop for a line that has a colon at
    [colon_pos]. The literal [" \t"] is a space followed by a tab
    (character 9). *)
Definition header_entry (header : string) (colon_pos : Z)
  : outcome (string * string) :=
  (key <- substr header 0 colon_pos ;;
   value <- substr header (size_add colon_pos 1) npos ;;
   key <- erase key 0 (find_first_not_of key (String " " (String "009" ""))) ;;
   key <- erase key (size_add (find_last_not_of key (String " " (String "009" ""))) 1) npos ;;
   value <- erase value 0 (find_first_not_of value (String " " (String "009" ""))) ;;
   value <- erase value (size_add (find_last_not_of value (String " " (String "009" ""))) 1) npos ;;
   Return (key, value))%exc.

(** The [while (std::getline(header_stream, header))] loop. [fuel] bounds
    the number of iterations; [header_stream] is what is left to read. *)
Fixpoint header_loop {H : Type} `{HeaderContainer H}
    (fuel : nat) (header_stream : string) (header_map : H) : outcome H :=
  match fuel with
  | O => Return header_map
  | S fuel' =>
      match getline header_stream with
      | None => Return header_map
      | Some (header, rest) =>
          let colon_pos := find_char header ":" in
          if negb (colon_pos =? npos)
          then (kv <- header_entry header colon_pos ;;
                header_loop fuel' rest (emplace (fst kv) (snd kv) header_map))%exc
          else header_loop fuel' rest header_map
      end
  end.

(** "Prepare headers": the map built from the [headers] argument. Every
    iteration consumes at least one character, so the length of the block
    is fuel enough. *)
Definition prepare_headers {H : Type} `{HeaderContainer H}
    (headers : string) : outcome H :=
  header_loop (String.length headers) headers no_headers.

(** ** The request functions *)

Section Transport.

(** The state of the network and of the servers behind it. *)
Variable World : Type.

(** The header container of the transport. *)
Context {H : Type} `{HeaderContainer H}.

(** The transport: one blocking round trip. *)
Variable transport : Client -> Request H -> World -> Result * World.

Definition M (A : Type) : Type := World -> outcome A * World.

Definition ret {A : Type} (a : A) : M A := fun w => (Return a, w).

Definition throw {A : Type} (e : exn) : M A := fun w => (Throw e, w).

Definition lift {A : Type} (c : outcome A) : M A := fun w => (c, w).

Definition bind {A B : Type} (c : M A) (k : A -> M B) : M B :=
  fun w =>
    match c w with
    | (Return a, w') => k a w'
    | (Throw e, w') => (Throw e, w')
    end.

Definition send (client : Client) (req : Request H) : M Result :=
  fun w => let (res, w') := transport client req w in (Return res, w').

Notation "x <~ c ;; k" := (bind c (fun x => k))
  (at level 61, c at next level, right associativity).

(** The lambda of [HTTPGetRequestFunction], applied to one row. *)
Definition HTTPGetRequestFunction (input : string) : M string :=
  let url := input in
  (* Use helper to setup client and parse URL *)
  client_and_path <~ lift (SetupHttpClient url) ;;
  let client := fst client_and_path in
  let path := snd client_and_path in
  (* Make the GET request *)
  res <~ send client (Get (c_str path)) ;;
  match res_response res with
  | Some r =>
      if Response.status r =? 200 then ret (Response.body r)
      else throw (runtime_error
             ("HTTP GET error: " ++ to_string (Response.status r) ++ " - "
              ++ Response.reason r))
  | None =>
      (* Handle errors *)
      _ <~ lift (HandleHttpError res "GET") ;;
      (* Ensure a return value in case of an error *)
      ret ""
  end.

(** The lambda of [HTTPPostRequestFunction], applied to one row. *)
Definition HTTPPostRequestFunction (url headers body : string) : M string :=
  let url_str := url in
  (* Use helper to setup client and parse URL *)
  client_and_path <~ lift (SetupHttpClient url_str) ;;
  let client := fst client_and_path in
  let path := snd client_and_path in
  (* Prepare headers *)
  header_map <~ lift (prepare_headers headers) ;;
  (* Make the POST request with headers and body *)
  res <~ send client (Post (c_str path) header_map body "application/json") ;;
  match res_response res with
  | Some r =>
      if Response.status r =? 200 then ret (Response.body r)
      else throw (runtime_error
             ("HTTP POST error: " ++ to_string (Response.status r) ++ " - "
              ++ Response.reason r))
  | None =>
      (* Handle errors *)
      _ <~ lift (HandleHttpError res "POST") ;;
      (* Ensure a return value in case of an error *)
      ret ""
  end.

End Transport.

Arguments ret {World A} a.
Arguments throw {World A} e.
Arguments lift {World A} c.
Arguments bind {World A B} c k.
Arguments send {World H} transport client req.
Arguments HTTPGetRequestFunction {World H} transport input.
Arguments HTTPPostRequestFunction {World H _} transport url headers body.

(** A transport double that answers with [respond] and records, in order,
    every call it receives: the client as configured at the time of the call
    and the request. *)
Definition Call (H : Type) : Type := (Client * Request H)%type.

Definition recording {H : Type} (respond : Client -> Request H -> Result)
  : Client -> Request H -> list (Call H) -> Result * list (Call H) :=
  fun client req log => (respond client req, (log ++ [(client, req)])%list).

(** A transport double that never obtains a response: every call fails
    with the error code [e] and leaves the state alone. *)
Definition failing {World H : Type} (e : Error)
  : Client -> Request H -> World -> Result * World :=
  fun _ _ w => ({| res_response := None; res_error := e |}, w).

(** A transport double that is down for one host only: a request through a
    client for [down_host] gets no response and the error code [e]; any
    other request gets the response [r]. *)
Definition failing_for {World H : Type} (down_host : string) (e : Error)
    (r : Response.t)
  : Client -> Request H -> World -> Result * World :=
  fun client _ w =>
    if String.eqb (host client) down_host
    then ({| res_response := None; res_error := e |}, w)
    else ({| res_response := Some r; res_error := OtherError 0 |}, w).

(** A transport double that always obtains the response [r]. The error
    code of a result that has a response is Success, the enumerator 0, which
    is none of those [HandleHttpError] names. *)
Definition answering {World H : Type} (r : Response.t)
  : Client -> Request H -> World -> Result * World :=
  fun _ _ w => ({| res_response := Some r; res_error := OtherError 0 |}, w).

(** ** The earlier version of the request functions

    The lambdas of the version of the file that parses the URL and maps the
    error codes in place ([src/unnamed/part_001]), before [SetupHttpClient]
    and [HandleHttpError] were factored out. The two [switch] statements
    there are the table [error_text]; the header loop is [header_loop]. *)

Module Draft.

Section Transport.

Variable World : Type.
Context {H : Type} `{HeaderContainer H}.
Variable transport : Client -> Request H -> World -> Result * World.

Notation "x <~ c ;; k" := (bind c (fun x => k))
  (at level 61, c at next level, right associativity).

Definition HTTPGetRequestFunction (input : string) : M World string :=
  let url := input in
  (* Parse the URL to extract the domain and path *)
  domain_path <~ lift
    (let pos := find url "://" in
     url <- (if negb (pos =? npos)
             then (_scheme <- substr url 0 pos ;;
                   erase url 0 (size_add pos 3))
             else Return url) ;;
     let pos := find url "/" in
     if negb (pos =? npos)
     then (domain <- substr url 0 pos ;;
           path <- substr url pos npos ;;
           Return (domain, path))
     else Return (url, "/"))%exc ;;
  let domain := fst domain_path in
  let path := snd domain_path in
  (* Create client and set a reasonable timeout (e.g., 10 seconds) *)
  let client := Client_new (c_str domain) in
  let client := set_read_timeout 10 0 client in
  (* Follow redirects, limit to 10 by default *)
  let client := set_follow_location true client in
  (* Make the GET request *)
  res <~ send transport client (Get (c_str path)) ;;
  match res_response res with
  | Some r =>
      if Response.status r =? 200 then ret (Response.body r)
      else throw (runtime_error
             ("HTTP error: " ++ to_string (Response.status r) ++ " - "
              ++ Response.reason r))
  | None =>
      (* Handle the error case *)
      let err_message := "HTTP request failed. " in
      let err_message := (err_message ++ error_text (res_error res))%string in
      throw (runtime_error err_message)
  end.

Definition HTTPPostRequestFunction (url headers_varchar body_varchar : string)
  : M World string :=
  let url_str := url in
  (* Parse the URL to extract the domain and path *)
  domain_path <~ lift
    (let pos := find url_str "://" in
     url_str <- (if negb (pos =? npos)
                 then (_scheme <- substr url_str 0 pos ;;
                       erase url_str 0 (size_add pos 3))
                 else Return url_str) ;;
     let pos := find url_str "/" in
     if negb (pos =? npos)
     then (domain <- substr url_str 0 pos ;;
           path <- substr url_str pos npos ;;
           Return (domain, path))
     else Return (url_str, "/"))%exc ;;
  let domain := fst domain_path in
  let path := snd domain_path in
  (* Create the client and set a timeout *)
  let client := Client_new (c_str domain) in
  let client := set_read_timeout 10 0 client in
  (* Follow redirects for POST as well *)
  let client := set_follow_location true client in
  (* Deserialize the header string into a header map *)
  header_map <~ lift
    (header_loop (String.length headers_varchar) headers_varchar no_headers) ;;
  (* Prepare the POST body (it is passed as a string) *)
  let body_str := body_varchar in
  (* Make the POST request *)
  res <~ send transport client
           (Post (c_str path) header_map body_str "application/json") ;;
  match res_response res with
  | Some r =>
      if Response.status r =? 200 then ret (Response.body r)
      else throw (runtime_error
             ("HTTP error: " ++ to_string (Response.status r) ++ " - "
              ++ Response.reason r))
  | None =>
      (* Handle the error case *)
      let err_message := "HTTP POST request failed. " in
      let err_message := (err_message ++ error_text (res_error res))%string in
      throw (runtime_error err_message)
  end.

End Transport.

Arguments HTTPGetRequestFunction {World H} transport input.
Arguments HTTPPostRequestFunction {World H _} transport url headers_varchar
  body_varchar.

End Draft.

(** ** Specification-level notions *)

(** [pat] occurs in [s] at index [i]. *)
Definition occurs_at (pat s : string) (i : nat) : Prop :=
  exists pre post, s = (pre ++ pat ++ post)%string /\ String.length pre = i.

Definition first_at (pat s : string) (i : nat) : Prop :=
  occurs_at pat s i /\ forall j, (j < i)%nat -> ~ occurs_at pat s j.

Definition absent (pat s : string) : Prop := forall i, ~ occurs_at pat s i.

(** The lines of a block: the pieces between newline characters. *)
Fixpoint spec_lines (s : string) : list string :=
  match s with
  | "" => [""]
  | String c r =>
      if Ascii.eqb c "010" then "" :: spec_lines r
      else match spec_lines r with
           | l :: ls => String c l :: ls
           | [] => [String c ""]
           end
  end.

(** Horizontal whitespace: space and tab. *)
Definition is_blank (c : ascii) : bool := Ascii.eqb c " " || Ascii.eqb c "009".

Fixpoint trim_leading (s : string) : string :=
  match s with
  | "" => ""
  | String c r => if is_blank c then trim_leading r else s
  end.

Fixpoint trim_trailing (s : string) : string :=
  match s with
  | "" => ""
  | String c r =>
      match trim_trailing r with
      | "" => if is_blank c then "" else String c ""
      | t => String c t
      end
  end.

Definition spec_trim (s : string) : string := trim_trailing (trim_leading s).

(** Lines put back together with a newline between neighbours. *)
Fixpoint join_lines (ls : list string) : string :=
  match ls with
  | [] => ""
  | [l] => l
  | l :: ls' => (l ++ String "010" (join_lines ls'))%string
  end.

Fixpoint all_blank (s : string) : bool :=
  match s with
  | "" => true
  | String c r => is_blank c && all_blank r
  end.

Definition starts_blank (s : string) : bool :=
  match s with
  | "" => false
  | String c _ => is_blank c
  end.

Fixpoint ends_blank (s : string) : bool :=
  match s with
  | "" => false
  | String c "" => is_blank c
  | String _ r => ends_blank r
  end.

(** What one line contributes: nothing without a colon, otherwise the
    trimmed text before and after its first colon. *)
Definition spec_entry (line : string) : list (string * string) :=
  match first_occurrence ":" line with
  | None => []
  | Some i => [(spec_trim (take i line), spec_trim (drop (S i) line))]
  end.

(** The entries of a header block in the order of their source lines. *)
Definition header_entries (block : string) : list (string * string) :=
  flat_map spec_entry (spec_lines block).

(** Inserting a sequence of entries, first to last, into a map. *)
Definition emplace_all {H : Type} `{HeaderContainer H}
    (entries : list (string * string)) (m : H) : H :=
  fold_left (fun acc kv => emplace (fst kv) (snd kv) acc) entries m.

(** Keys the comparator does not tell apart. *)
Definition ci_equiv (k1 k2 : string) : bool :=
  negb (ci_less k1 k2) && negb (ci_less k2 k1).

(** The order of iteration: no entry comes before one with a smaller key. *)
Definition key_le (e1 e2 : string * string) : Prop :=
  ci_less (fst e2) (fst e1) = false.

(** The eleven error codes the switch names. *)
Definition named_errors : list Error :=
  [Connection; BindIPAddress; Read; Write; ExceedRedirectCount; Canceled;
   SSLConnection; SSLLoadingCerts; SSLServerVerification;
   UnsupportedMultipartBoundaryChars; Compression].

(** The path of a request, as the transport receives it. *)
Definition request_path {H : Type} (req : Request H) : string :=
  match req with
  | Get path => path
  | Post path _ _ _ => path
  end.

(** A header name or value as the loop leaves it: no space or tab at either
    end and no newline; a name has no colon either. *)
Definition trimmed (s : string) : Prop :=
  starts_blank s = false /\ ends_blank s = false /\ mem "010" s = false.

Definition clean_entry (e : string * string) : Prop :=
  trimmed (fst e) /\ mem ":" (fst e) = false /\ trimmed (snd e).

(** ** Sanity checks on concrete inputs *)

Example decompose_ex1 : decompose "scheme://host/a/b" = Return ("host", "/a/b").
Proof. reflexivity. Qed.

Example decompose_ex2 : decompose "host" = Return ("host", "/").
Proof. reflexivity. Qed.

Example decompose_ex3 : decompose "scheme://host" = Return ("host", "/").
Proof. reflexivity. Qed.

Example prepare_headers_ex1 :
  prepare_headers (H := Multimap) ("Content-Type: application/json" ++ String "010" "X-Foo:bar")
  = Return [("Content-Type", "application/json"); ("X-Foo", "bar")].
Proof. vm_compute. reflexivity. Qed.

Example prepare_headers_ex2 :
  prepare_headers (H := Multimap) ("B: 1" ++ String "010" "A: 2")
  = Return [("A", "2"); ("B", "1")].
Proof. vm_compute. reflexivity. Qed.

Example header_entries_ex2 :
  header_entries ("B: 1" ++ String "010" "A: 2") = [("B", "1"); ("A", "2")].
Proof. vm_compute. reflexivity. Qed.

(** ** Facts about strings *)

Lemma length_app (s t : string) :
  String.length (s ++ t) = (String.length s + String.length t)%nat.
Proof. induction s as [|c s IH]; simpl; [reflexivity | now rewrite IH]. Qed.

Lemma app_empty_r (s : string) : (s ++ "")%string = s.
Proof. induction s as [|c s IH]; simpl; [reflexivity | now rewrite IH]. Qed.

Lemma app_assoc_str (s t u : string) :
  ((s ++ t) ++ u)%string = (s ++ t ++ u)%string.
Proof. induction s as [|c s IH]; simpl; [reflexivity | now rewrite IH]. Qed.

Lemma length_take (n : nat) (s : string) :
  String.length (take n s) = Nat.min n (String.length s).
Proof.
  revert s; induction n as [|n IH]; intros [|c s]; simpl; auto.
Qed.

Lemma length_drop (n : nat) (s : string) :
  String.length (drop n s) = (String.length s - n)%nat.
Proof.
  revert s; induction n as [|n IH]; intros [|c s]; simpl; auto.
Qed.

Lemma take_drop (n : nat) (s : string) : (take n s ++ drop n s)%string = s.
Proof.
  revert s; induction n as [|n IH]; intros [|c s]; simpl; auto.
  now rewrite IH.
Qed.

Lemma take_all (n : nat) (s : string) :
  (String.length s <= n)%nat -> take n s = s.
Proof.
  revert s; induction n as [|n IH]; intros [|c s]; simpl; intros H; auto.
  - lia.
  - rewrite IH; [reflexivity | lia].
Qed.

Lemma drop_all (n : nat) (s : string) :
  (String.length s <= n)%nat -> drop n s = "".
Proof.
  revert s; induction n as [|n IH]; intros [|c s]; simpl; intros H; auto.
  - lia.
  - apply IH; lia.
Qed.

Lemma take_0 (s : string) : take 0 s = "".
Proof. now destruct s. Qed.

Lemma drop_0 (s : string) : drop 0 s = s.
Proof. now destruct s. Qed.

Lemma take_app_length (pre post : string) :
  take (String.length pre) (pre ++ post) = pre.
Proof.
  induction pre as [|c pre IH]; simpl; [reflexivity | now rewrite IH].
Qed.

Lemma drop_app_length (pre post : string) :
  drop (String.length pre) (pre ++ post) = post.
Proof.
  induction pre as [|c pre IH]; simpl; [now destruct post | exact IH].
Qed.

Lemma drop_drop (n m : nat) (s : string) : drop n (drop m s) = drop (m + n) s.
Proof.
  revert s; induction m as [|m IH]; intros s; simpl.
  - reflexivity.
  - destruct s as [|c s]; [now destruct n | apply IH].
Qed.

Lemma prefix_app (pat s : string) :
  prefix pat s = true <-> exists post, s = (pat ++ post)%string.
Proof.
  revert s; induction pat as [|a pat IH]; intros s.
  - split; [intros _; now exists s | intros _; now destruct s].
  - destruct s as [|b s]; simpl.
    + split; [discriminate | intros [post H]; simpl in H; discriminate H].
    + destruct (ascii_dec a b) as [->|Hne].
      * rewrite IH. split; intros [post H]; exists post;
          [now subst | simpl in H; now inversion H].
      * split; [discriminate | intros [post H]; simpl in H; congruence].
Qed.

Lemma occurs_at_prefix (pat s : string) (i : nat) :
  occurs_at pat s i <-> (i <= String.length s)%nat /\ prefix pat (drop i s) = true.
Proof.
  split.
  - intros (pre & post & -> & <-). split.
    + rewrite length_app; lia.
    + rewrite drop_app_length. apply prefix_app. now exists post.
  - intros [Hi Hp]. apply prefix_app in Hp as [post Hpost].
    exists (take i s), post. split.
    + rewrite <- Hpost. symmetry; apply (take_drop i s).
    + rewrite length_take. lia.
Qed.

Lemma occurs_at_cons (pat : string) (c : ascii) (s : string) (i : nat) :
  occurs_at pat (String c s) (S i) <-> occurs_at pat s i.
Proof. rewrite !occurs_at_prefix; simpl. intuition lia. Qed.

Lemma occurs_at_0 (pat s : string) : occurs_at pat s 0 <-> prefix pat s = true.
Proof. rewrite occurs_at_prefix, drop_0. intuition lia. Qed.

Lemma first_occurrence_eq (pat s : string) :
  first_occurrence pat s =
  if prefix pat s then Some 0%nat
  else match s with
       | "" => None
       | String _ r => option_map S (first_occurrence pat r)
       end.
Proof. now destruct s. Qed.

Lemma first_occurrence_Some (pat s : string) (i : nat) :
  first_occurrence pat s = Some i -> first_at pat s i.
Proof.
  revert i; induction s as [|c s IH]; intros i; rewrite first_occurrence_eq.
  - destruct (prefix pat "") eqn:E; [|discriminate].
    intros [= <-]. split; [now apply occurs_at_0 | intros j Hj; lia].
  - destruct (prefix pat (String c s)) eqn:E.
    + intros [= <-]. split; [now apply occurs_at_0 | intros j Hj; lia].
    + destruct (first_occurrence pat s) as [i'|]; [|discriminate].
      simpl. intros [= <-]. destruct (IH i' eq_refl) as [Ho Hf]. split.
      * now apply occurs_at_cons.
      * intros [|j] Hj.
        -- rewrite occurs_at_0. congruence.
        -- rewrite occurs_at_cons. apply Hf. lia.
Qed.

Lemma first_occurrence_None (pat s : string) :
  first_occurrence pat s = None -> absent pat s.
Proof.
  induction s as [|c s IH]; rewrite first_occurrence_eq.
  - destruct (prefix pat "") eqn:E; [discriminate|]. intros _ i.
    rewrite occurs_at_prefix. intros [Hi Hp]. simpl in Hi.
    assert (i = 0%nat) by lia. subst. rewrite drop_0 in Hp. congruence.
  - destruct (prefix pat (String c s)) eqn:E; [discriminate|].
    destruct (first_occurrence pat s) as [i'|]; [discriminate|].
    intros _ [|i].
    + rewrite occurs_at_0. congruence.
    + rewrite occurs_at_cons. now apply IH.
Qed.

Lemma first_occurrence_le (pat s : string) (i : nat) :
  first_occurrence pat s = Some i ->
  (i + String.length pat <= String.length s)%nat.
Proof.
  intros H. apply first_occurrence_Some in H as [(pre & post & -> & <-) _].
  rewrite !length_app. lia.
Qed.

Lemma first_occurrence_drop (pat s : string) (i : nat) :
  first_occurrence pat s = Some i ->
  exists post, drop i s = (pat ++ post)%string.
Proof.
  intros H. apply first_occurrence_Some in H as [(pre & post & -> & <-) _].
  exists post. apply drop_app_length.
Qed.

(** ** [std::string] operations that stay in range *)

Lemma npos_value : npos = 18446744073709551615.
Proof. reflexivity. Qed.

Lemma size_nonneg (s : string) : 0 <= size s.
Proof. unfold size; lia. Qed.

Lemma size_add_small (a b : Z) :
  0 <= a + b -> a + b <= npos -> size_add a b = a + b.
Proof.
  intros H0 H1. unfold size_add. rewrite npos_value in H1.
  apply Z.mod_small. change (2 ^ 64) with 18446744073709551616. lia.
Qed.

Lemma size_add_bounds (a b : Z) : 0 <= size_add a b <= npos.
Proof.
  unfold size_add. rewrite npos_value.
  pose proof (Z.mod_pos_bound (a + b) (2 ^ 64) eq_refl) as H.
  change (2 ^ 64) with 18446744073709551616 in *. lia.
Qed.

Lemma size_add_le (a b : Z) : 0 <= a + b -> size_add a b <= a + b.
Proof.
  intros H. unfold size_add. apply Z.mod_le; [assumption | reflexivity].
Qed.

Lemma size_add_npos_1 : size_add npos 1 = 0.
Proof. reflexivity. Qed.

Lemma substr_Return (s : string) (pos n : Z) :
  pos <= size s ->
  substr s pos n
  = Return (take (Z.to_nat (Z.min n (size s - pos))) (drop (Z.to_nat pos) s)).
Proof.
  intros H. unfold substr. destruct (Z.ltb_spec (size s) pos); [lia | reflexivity].
Qed.

Lemma erase_Return (s : string) (pos n : Z) :
  pos <= size s ->
  erase s pos n
  = Return (take (Z.to_nat pos) s
            ++ drop (Z.to_nat (pos + Z.min n (size s - pos))) s)%string.
Proof.
  intros H. unfold erase. destruct (Z.ltb_spec (size s) pos); [lia | reflexivity].
Qed.

Lemma substr_to_end (s : string) (j : nat) :
  (j <= String.length s)%nat ->
  size s < npos ->
  substr s (Z.of_nat j) npos = Return (drop j s).
Proof.
  intros Hj Hs. unfold size in Hs. rewrite substr_Return by (unfold size; lia).
  rewrite Nat2Z.id. f_equal. apply take_all. rewrite length_drop.
  unfold size. lia.
Qed.

Lemma substr_from_0 (s : string) (j : nat) :
  (j <= String.length s)%nat ->
  substr s 0 (Z.of_nat j) = Return (take j s).
Proof.
  intros Hj. rewrite substr_Return by apply size_nonneg.
  change (Z.to_nat 0) with 0%nat. rewrite drop_0. do 2 f_equal.
  unfold size. lia.
Qed.

Lemma erase_prefix (s : string) (n : Z) :
  0 <= n ->
  erase s 0 n = Return (drop (Z.to_nat (Z.min n (size s))) s).
Proof.
  intros Hn. rewrite erase_Return by apply size_nonneg.
  change (Z.to_nat 0) with 0%nat. rewrite take_0. simpl.
  do 3 f_equal. lia.
Qed.

Lemma erase_suffix (s : string) (k : nat) :
  (k <= String.length s)%nat ->
  size s <= npos ->
  erase s (Z.of_nat k) npos = Return (take k s).
Proof.
  intros Hk Hs. rewrite erase_Return by (unfold size; lia).
  rewrite Nat2Z.id. f_equal. rewrite drop_all.
  - apply app_empty_r.
  - unfold size in *. lia.
Qed.

(** ** [SetupHttpClient]: the decomposition *)

Lemma decompose_stages (url : string) :
  exists mod_url host path,
    decompose url = Return (host, path)
    /\ (exists post, path = String "/" post)
    /\ (size url < npos ->
        match first_occurrence "://" url with
        | Some i => mod_url = drop (i + 3) url
        | None => mod_url = url
        end
        /\ match first_occurrence "/" mod_url with
           | Some j => host = take j mod_url /\ path = drop j mod_url
           | None => host = mod_url /\ path = "/"
           end).
Proof.
  unfold decompose, find.
  (* first stage: the scheme *)
  assert (exists mod_url,
    (if negb (pos_of (first_occurrence "://" url) =? npos)
     then (_scheme <- substr url 0 (pos_of (first_occurrence "://" url)) ;;
           erase url 0 (size_add (pos_of (first_occurrence "://" url)) 3))%exc
     else Return url) = Return mod_url
    /\ (size mod_url <= size url)
    /\ (size url < npos ->
        match first_occurrence "://" url with
        | Some i => mod_url = drop (i + 3) url
        | None => mod_url = url
        end)) as (mod_url & -> & Hsz & H1).
  { destruct (first_occurrence "://" url) as [i|] eqn:E; simpl pos_of.
    - pose proof (first_occurrence_le _ _ _ E) as Hi. simpl in Hi.
      destruct (Z.eqb_spec (Z.of_nat i) npos) as [Heq|Hne]; simpl negb; cbv iota.
      + exists url. split; [reflexivity|]. split; [lia|].
        intros Hs. unfold size in Hs. lia.
      + rewrite substr_from_0 by lia. simpl obind.
        rewrite erase_prefix by apply size_add_bounds.
        eexists. split; [reflexivity|]. split.
        * unfold size. rewrite length_drop. lia.
        * intros Hs. unfold size in Hs.
          rewrite size_add_small by lia. f_equal. unfold size. lia.
    - exists url. split; [reflexivity|]. split; [lia|]. auto. }
  simpl obind.
  (* second stage: host and path *)
  destruct (first_occurrence "/" mod_url) as [j|] eqn:E; simpl pos_of.
  - pose proof (first_occurrence_le _ _ _ E) as Hj. simpl in Hj.
    destruct (first_occurrence_drop _ _ _ E) as [post Hpost]. simpl in Hpost.
    destruct (Z.eqb_spec (Z.of_nat j) npos) as [Heq|Hne]; simpl negb; cbv iota.
    + exists mod_url, mod_url, "/". split; [reflexivity|]. split; [now exists ""|].
      intros Hs. unfold size in *. lia.
    + rewrite substr_from_0 by lia. simpl obind.
      rewrite substr_Return by (unfold size; lia). simpl obind.
      rewrite Nat2Z.id, Hpost.
      exists mod_url. do 2 eexists. split; [reflexivity|]. split.
      * destruct (Z.to_nat (Z.min npos (size mod_url - Z.of_nat j))) eqn:En.
        -- exfalso. rewrite npos_value in En. unfold size in En. lia.
        -- simpl. eexists; reflexivity.
      * intros Hs. split; [now apply H1|]. rewrite E. split; [reflexivity|].
        rewrite <- Hpost. apply take_all. rewrite length_drop.
        unfold size in *. lia.
  - exists mod_url, mod_url, "/". rewrite Z.eqb_refl. simpl.
    split; [reflexivity|]. split; [now exists ""|]. intros Hs.
    rewrite E. split; [now apply H1 | split; reflexivity].
Qed.

Lemma mem_single (c d : ascii) : mem c (String d "") = Ascii.eqb c d.
Proof. simpl. apply orb_false_r. Qed.

Lemma first_occurrence_after (c : ascii) (pat pre post : string) :
  mem c pre = false ->
  first_occurrence (String c pat) (pre ++ String c pat ++ post)
  = Some (String.length pre).
Proof.
  induction pre as [|a pre IH]; intros Hmem.
  - rewrite first_occurrence_eq.
    assert (prefix (String c pat) ("" ++ String c pat ++ post) = true) as ->.
    { apply prefix_app. now exists post. }
    reflexivity.
  - simpl in Hmem. apply orb_false_iff in Hmem as [Hca Hpre].
    apply Ascii.eqb_neq in Hca.
    change (String a pre ++ String c pat ++ post)%string
      with (String a (pre ++ String c pat ++ post)).
    rewrite first_occurrence_eq.
    assert (prefix (String c pat) (String a (pre ++ String c pat ++ post)) = false)
      as ->.
    { simpl. destruct (ascii_dec c a); [contradiction | reflexivity]. }
    rewrite (IH Hpre). reflexivity.
Qed.

Lemma decompose_scheme_host_path (scheme h p : string) :
  size (scheme ++ "://" ++ h ++ "/" ++ p) < npos ->
  mem ":" scheme = false ->
  mem "/" h = false ->
  decompose (scheme ++ "://" ++ h ++ "/" ++ p) = Return (h, ("/" ++ p)%string).
Proof.
  intros Hs Hscheme Hh.
  destruct (decompose_stages (scheme ++ "://" ++ h ++ "/" ++ p))
    as (mod_url & host' & path' & -> & _ & H).
  destruct (H Hs) as [H1 H2]. clear H.
  rewrite (first_occurrence_after ":" "//" scheme (h ++ "/" ++ p) Hscheme) in H1.
  assert (mod_url = (h ++ "/" ++ p)%string) as ->.
  { rewrite H1.
    replace (String.length scheme + 3)%nat
      with (String.length (scheme ++ "://")) by (rewrite length_app; reflexivity).
    rewrite <- (app_assoc_str scheme "://" (h ++ "/" ++ p)).
    apply drop_app_length. }
  rewrite (first_occurrence_after "/" "" h p Hh) in H2.
  destruct H2 as [-> ->].
  now rewrite take_app_length, drop_app_length.
Qed.

(** C2: the URL decomposer locates the first ["://"] and drops everything up
    to and including it when there is one, then splits what remains at its
    first ['/'] into the host (before) and the path (from the slash on), or
    takes all of it as the host with path ["/"] when there is no slash. So a
    URL made of a scheme without colon, ["://"], a host without slash and a
    path ["/" ++ p] yields that host and that path, and
    ["scheme://host/a/b"] yields host ["host"] and path ["/a/b"]. Any string
    a [std::string] can hold is shorter than [npos]. *)
Theorem decompose_splits_scheme_host_path (url : string) :
  size url < npos ->
  (exists rest domain path,
      decompose url = Return (domain, path)
      /\ ((exists i, first_at "://" url i /\ rest = drop (i + 3) url)
          \/ (absent "://" url /\ rest = url))
      /\ ((exists j, first_at "/" rest j
                     /\ domain = take j rest /\ path = drop j rest)
          \/ (absent "/" rest /\ domain = rest /\ path = "/")))
  /\ (forall scheme h p,
         url = (scheme ++ "://" ++ h ++ "/" ++ p)%string ->
         mem ":" scheme = false ->
         mem "/" h = false ->
         decompose url = Return (h, ("/" ++ p)%string))
  /\ decompose "scheme://host/a/b" = Return ("host", "/a/b").
Proof.
  intros Hs. split; [|split].
  - destruct (decompose_stages url) as (rest & domain & path & Hd & _ & H).
    destruct (H Hs) as [H1 H2]. clear H.
    exists rest, domain, path. split; [exact Hd|]. split.
    + destruct (first_occurrence "://" url) as [i|] eqn:E.
      * left. exists i. split; [now apply first_occurrence_Some | exact H1].
      * right. split; [now apply first_occurrence_None | exact H1].
    + destruct (first_occurrence "/" rest) as [j|] eqn:E.
      * left. exists j. split; [now apply first_occurrence_Some | exact H2].
      * right. split; [now apply first_occurrence_None | exact H2].
  - intros scheme h p -> Hscheme Hh. now apply decompose_scheme_host_path.
  - reflexivity.
Qed.

Lemma decompose_splits_scheme_host_path_witness :
  (exists rest domain path,
      decompose "scheme://host/a/b" = Return (domain, path)
      /\ ((exists i, first_at "://" "scheme://host/a/b" i
                     /\ rest = drop (i + 3) "scheme://host/a/b")
          \/ (absent "://" "scheme://host/a/b" /\ rest = "scheme://host/a/b"))
      /\ ((exists j, first_at "/" rest j
                     /\ domain = take j rest /\ path = drop j rest)
          \/ (absent "/" rest /\ domain = rest /\ path = "/")))
  /\ (forall scheme h p,
         "scheme://host/a/b" = (scheme ++ "://" ++ h ++ "/" ++ p)%string ->
         mem ":" scheme = false ->
         mem "/" h = false ->
         decompose "scheme://host/a/b" = Return (h, ("/" ++ p)%string))
  /\ decompose "scheme://host/a/b" = Return ("host", "/a/b").
Proof.
  apply (decompose_splits_scheme_host_path "scheme://host/a/b").
  reflexivity.
Defined.

(** C7: for every URL string the path that the decomposer produces, which
    is the path [SetupHttpClient] returns, is non-empty and its first
    character is ['/']. *)
Theorem decompose_path_starts_with_slash (url : string) :
  exists client domain path,
    decompose url = Return (domain, path)
    /\ SetupHttpClient url = Return (client, path)
    /\ path <> ""
    /\ String.get 0 path = Some "/"%char.
Proof.
  destruct (decompose_stages url) as (_ & domain & path & Hd & [post ->] & _).
  unfold SetupHttpClient. rewrite Hd. simpl.
  eexists. exists domain. eexists. repeat split; discriminate.
Qed.

(** C8: the URL decomposer never fails: for every input string it returns a
    host and a path, no [substr] or [erase] throws, and so does
    [SetupHttpClient]; the empty string yields host [""] and path ["/"]. *)
Theorem decompose_never_fails :
  (forall url, exists domain path, decompose url = Return (domain, path))
  /\ (forall url, exists client path, SetupHttpClient url = Return (client, path))
  /\ decompose "" = Return ("", "/").
Proof.
  split; [|split].
  - intros url.
    destruct (decompose_stages url) as (_ & domain & path & Hd & _).
    now exists domain, path.
  - intros url.
    destruct (decompose_stages url) as (_ & domain & path & Hd & _).
    unfold SetupHttpClient. rewrite Hd. simpl. now eexists; eexists.
  - reflexivity.
Qed.

(** ** Trimming with [find_first_not_of], [find_last_not_of] and [erase] *)

Lemma mem_blanks (c : ascii) : mem c (String " " (String "009" "")) = is_blank c.
Proof. unfold is_blank. simpl. now rewrite orb_false_r. Qed.

Lemma first_not_of_spec (s : string) :
  match first_not_of (String " " (String "009" "")) s with
  | Some i => (i < String.length s)%nat /\ drop i s = trim_leading s
  | None => trim_leading s = ""
  end.
Proof.
  induction s as [|c s IH].
  - reflexivity.
  - cbn [first_not_of trim_leading]. rewrite mem_blanks.
    destruct (is_blank c).
    + destruct (first_not_of (String " " (String "009" "")) s) as [i|]; simpl.
      * destruct IH as [Hi Hd]. split; [lia | exact Hd].
      * exact IH.
    + simpl. split; [lia | reflexivity].
Qed.

Lemma last_not_of_spec (s : string) :
  match last_not_of (String " " (String "009" "")) s with
  | Some k => (k < String.length s)%nat /\ take (S k) s = trim_trailing s
  | None => trim_trailing s = ""
  end.
Proof.
  induction s as [|c s IH].
  - reflexivity.
  - cbn [last_not_of trim_trailing]. rewrite mem_blanks.
    destruct (last_not_of (String " " (String "009" "")) s) as [k|].
    + destruct IH as [Hk Ht]. split; [simpl; lia|].
      change (take (S (S k)) (String c s)) with (String c (take (S k) s)).
      rewrite <- Ht. destruct s as [|d s]; [simpl in Hk; lia | reflexivity].
    + rewrite IH. destruct (is_blank c).
      * reflexivity.
      * split; [simpl; lia | reflexivity].
Qed.

(** The two [erase] calls that trim one string. *)
Lemma trim_by_erase (s : string) :
  exists t,
    (s1 <- erase s 0 (find_first_not_of s (String " " (String "009" ""))) ;;
     erase s1 (size_add (find_last_not_of s1 (String " " (String "009" ""))) 1) npos)%exc
    = Return t
    /\ (size s < npos -> t = spec_trim s).
Proof.
  unfold find_first_not_of, find_last_not_of.
  assert (exists s1,
    erase s 0 (pos_of (first_not_of (String " " (String "009" "")) s)) = Return s1
    /\ size s1 <= size s
    /\ (size s < npos -> s1 = trim_leading s)) as (s1 & -> & Hsz & H1).
  { pose proof (first_not_of_spec s) as Hf.
    destruct (first_not_of (String " " (String "009" "")) s) as [i|]; simpl pos_of.
    - destruct Hf as [Hi Hd]. rewrite erase_prefix by lia.
      eexists. split; [reflexivity|]. split.
      + unfold size. rewrite length_drop. lia.
      + intros _. rewrite <- Hd. f_equal. unfold size. lia.
    - rewrite erase_prefix by (rewrite npos_value; lia).
      eexists. split; [reflexivity|]. split.
      + unfold size. rewrite length_drop. lia.
      + intros Hs. rewrite Hf. apply drop_all. unfold size in *. lia. }
  simpl obind.
  pose proof (last_not_of_spec s1) as Hl.
  destruct (last_not_of (String " " (String "009" "")) s1) as [k|]; simpl pos_of.
  - destruct Hl as [Hk Ht].
    rewrite erase_Return
      by (pose proof (size_add_le (Z.of_nat k) 1); unfold size; lia).
    eexists. split; [reflexivity|].
    intros Hs. unfold spec_trim. rewrite <- (H1 Hs), <- Ht.
    rewrite size_add_small by (unfold size in *; lia).
    replace (Z.to_nat (Z.of_nat k + 1)) with (S k) by lia.
    rewrite drop_all; [apply app_empty_r|]. unfold size in *. lia.
  - rewrite size_add_npos_1. rewrite erase_Return by apply size_nonneg.
    eexists. split; [reflexivity|].
    intros Hs. unfold spec_trim. rewrite <- (H1 Hs), Hl.
    change (Z.to_nat 0) with 0%nat. rewrite take_0. simpl.
    apply drop_all. unfold size in *. lia.
Qed.

Lemma header_entry_spec (header : string) (i : nat) :
  first_occurrence ":" header = Some i ->
  exists key value,
    header_entry header (Z.of_nat i) = Return (key, value)
    /\ (size header < npos ->
        key = spec_trim (take i header)
        /\ value = spec_trim (drop (S i) header)).
Proof.
  intros E. pose proof (first_occurrence_le _ _ _ E) as Hi. simpl in Hi.
  unfold header_entry.
  rewrite substr_from_0 by lia. simpl obind.
  rewrite substr_Return
    by (pose proof (size_add_le (Z.of_nat i) 1); unfold size; lia).
  simpl obind.
  set (key0 := take i header).
  set (value0 := take _ (drop _ header)).
  destruct (trim_by_erase key0) as (key & Hk & Hkey).
  destruct (trim_by_erase value0) as (value & Hv & Hvalue).
  exists key, value. split.
  - destruct (erase key0 0 _) as [k1|] eqn:Ek1; [|discriminate Hk].
    simpl in Hk |- *. rewrite Hk. simpl.
    destruct (erase value0 0 _) as [v1|] eqn:Ev1; [|discriminate Hv].
    simpl in Hv |- *. rewrite Hv. reflexivity.
  - intros Hs.
    assert (size key0 < npos) as Hks.
    { unfold key0, size in *. rewrite length_take. lia. }
    assert (value0 = drop (S i) header) as Hv0.
    { unfold value0. rewrite size_add_small by (unfold size in *; lia).
      replace (Z.to_nat (Z.of_nat i + 1)) with (S i) by lia.
      apply take_all. rewrite length_drop. unfold size in *. lia. }
    split; [now apply Hkey|].
    rewrite <- Hv0. apply Hvalue.
    rewrite Hv0. unfold size in *. rewrite length_drop. lia.
Qed.

(** ** The header loop *)

Lemma getline_split_length (s : string) :
  (String.length (fst (getline_split s)) + String.length (snd (getline_split s))
   <= String.length s)%nat.
Proof.
  induction s as [|c s IH]; simpl; [lia|].
  destruct (Ascii.eqb c "010"); simpl; [lia|].
  destruct (getline_split s) as [l r]. simpl in *. lia.
Qed.

Lemma getline_split_rest (c : ascii) (s : string) :
  (String.length (snd (getline_split (String c s))) <= String.length s)%nat.
Proof.
  simpl. destruct (Ascii.eqb c "010"); simpl; [lia|].
  pose proof (getline_split_length s) as H.
  destruct (getline_split s) as [l r]. simpl in *. lia.
Qed.

Lemma spec_lines_getline (s : string) :
  exists tail,
    spec_lines s = fst (getline_split s) :: tail
    /\ flat_map spec_entry tail = header_entries (snd (getline_split s)).
Proof.
  induction s as [|c s IH].
  - exists []. split; reflexivity.
  - simpl. destruct (Ascii.eqb c "010").
    + exists (spec_lines s). split; reflexivity.
    + destruct IH as (tail & -> & Ht).
      destruct (getline_split s) as [l r]. simpl in *.
      exists tail. split; [reflexivity | exact Ht].
Qed.

Lemma header_entries_getline (s : string) :
  header_entries s
  = (spec_entry (fst (getline_split s))
     ++ header_entries (snd (getline_split s)))%list.
Proof.
  destruct (spec_lines_getline s) as (tail & Hl & Ht).
  unfold header_entries at 1. rewrite Hl. simpl. now rewrite Ht.
Qed.

Section HeaderLoop.

Context {H : Type} `{HeaderContainer H}.

Lemma emplace_all_app (a b : list (string * string)) (m : H) :
  emplace_all (a ++ b)%list m = emplace_all b (emplace_all a m).
Proof. unfold emplace_all. apply fold_left_app. Qed.

Lemma header_loop_spec (fuel : nat) :
  forall (stream : string) (m : H),
    (String.length stream <= fuel)%nat ->
    exists m',
      header_loop fuel stream m = Return m'
      /\ (size stream < npos -> m' = emplace_all (header_entries stream) m).
Proof.
  induction fuel as [|fuel IH]; intros stream m Hlen.
  - destruct stream; [|simpl in Hlen; lia].
    exists m. split; reflexivity.
  - destruct stream as [|c s].
    + exists m. split; reflexivity.
    + cbn [header_loop getline].
      pose proof (getline_split_rest c s) as Hrest.
      pose proof (getline_split_length (String c s)) as Hsplit.
      rewrite (header_entries_getline (String c s)).
      destruct (getline_split (String c s)) as [header rest].
      cbn [fst snd] in *. simpl String.length in Hlen, Hsplit.
      unfold find_char, find, spec_entry.
      destruct (first_occurrence ":" header) as [i|] eqn:E; simpl pos_of.
      * destruct (Z.eqb_spec (Z.of_nat i) npos) as [Heq|Hne]; simpl negb; cbv iota.
        -- destruct (IH rest m ltac:(lia)) as (m' & Hm' & _).
           exists m'. split; [exact Hm'|].
           intros Hs. pose proof (first_occurrence_le _ _ _ E).
           unfold size in Hs. simpl String.length in Hs. lia.
        -- destruct (header_entry_spec header i E) as (key & value & -> & Hkv).
           simpl obind. cbn [fst snd].
           destruct (IH rest (emplace key value m) ltac:(lia)) as (m' & Hm' & Hspec).
           exists m'. split; [exact Hm'|].
           intros Hs. unfold size in Hs. simpl String.length in Hs.
           destruct Hkv as [-> ->]; [unfold size; lia|].
           rewrite emplace_all_app. apply Hspec. unfold size. lia.
      * rewrite Z.eqb_refl. simpl negb. cbv iota.
        destruct (IH rest m ltac:(lia)) as (m' & Hm' & Hspec).
        exists m'. split; [exact Hm'|].
        intros Hs. unfold size in Hs. simpl String.length in Hs.
        simpl app. apply Hspec. unfold size. lia.
Qed.

(** More fuel than the length of the stream changes nothing: the loop ends
    because [getline] fails, not because the bound is reached. *)
Lemma header_loop_fuel (fuel1 fuel2 : nat) :
  forall (stream : string) (m : H),
    (String.length stream <= fuel1)%nat ->
    (String.length stream <= fuel2)%nat ->
    header_loop fuel1 stream m = header_loop fuel2 stream m.
Proof.
  revert fuel2; induction fuel1 as [|fuel1 IH]; intros fuel2 stream m H1 H2.
  - destruct stream; [|simpl in H1; lia]. now destruct fuel2.
  - destruct fuel2 as [|fuel2].
    + destruct stream; [reflexivity | simpl in H2; lia].
    + destruct stream as [|c s]; [reflexivity|].
      cbn [header_loop getline].
      pose proof (getline_split_rest c s) as Hrest.
      destruct (getline_split (String c s)) as [header rest].
      cbn [fst snd] in *. simpl String.length in H1, H2.
      destruct (negb (find_char header ":" =? npos)).
      * destruct (header_entry header (find_char header ":")) as [kv|e];
          [|reflexivity].
        simpl obind. apply IH; lia.
      * apply IH; lia.
Qed.

Lemma prepare_headers_spec (headers : string) :
  exists header_map : H,
    prepare_headers headers = Return header_map
    /\ (size headers < npos
        -> header_map = emplace_all (header_entries headers) no_headers).
Proof. apply header_loop_spec. lia. Qed.

End HeaderLoop.

(** What the specification-level notions mean. *)

Lemma first_at_first_occurrence (pat s : string) (i : nat) :
  first_at pat s i -> first_occurrence pat s = Some i.
Proof.
  intros [Ho Hf]. destruct (first_occurrence pat s) as [j|] eqn:E.
  - apply first_occurrence_Some in E as [Ho' Hf'].
    destruct (Nat.lt_trichotomy i j) as [Hlt|[->|Hgt]].
    + now destruct (Hf' i Hlt).
    + reflexivity.
    + now destruct (Hf j Hgt).
  - apply first_occurrence_None in E. now destruct (E i).
Qed.

Lemma absent_first_occurrence (pat s : string) :
  absent pat s -> first_occurrence pat s = None.
Proof.
  intros Ha. destruct (first_occurrence pat s) as [j|] eqn:E; [|reflexivity].
  apply first_occurrence_Some in E as [Ho _]. now destruct (Ha j).
Qed.

Lemma spec_lines_nonempty (s : string) : spec_lines s <> [].
Proof.
  destruct s as [|c s]; simpl; [discriminate|].
  destruct (Ascii.eqb c "010"); [discriminate|].
  destruct (spec_lines s); discriminate.
Qed.

Lemma spec_lines_join (s : string) : join_lines (spec_lines s) = s.
Proof.
  induction s as [|c s IH]; [reflexivity|].
  simpl. destruct (Ascii.eqb_spec c "010") as [->|Hc].
  - pose proof (spec_lines_nonempty s) as Hne.
    cbn [join_lines]. destruct (spec_lines s) as [|l ls]; [contradiction|].
    simpl. now rewrite <- IH.
  - pose proof (spec_lines_nonempty s) as Hne.
    destruct (spec_lines s) as [|l ls]; [contradiction|].
    rewrite <- IH. destruct ls; reflexivity.
Qed.

Lemma spec_lines_no_newline (s : string) :
  Forall (fun l => mem "010" l = false) (spec_lines s).
Proof.
  induction s as [|c s IH]; cbn [spec_lines].
  - constructor; [reflexivity | constructor].
  - destruct (Ascii.eqb_spec c "010") as [->|Hc].
    + constructor; [reflexivity | exact IH].
    + assert (Ascii.eqb "010" c = false) as Hn
        by (apply Ascii.eqb_neq; congruence).
      destruct (spec_lines s) as [|l ls].
      * constructor; [|constructor]. cbn [mem]. now rewrite Hn.
      * inversion IH; subst. constructor; [|assumption].
        cbn [mem]. rewrite Hn. assumption.
Qed.

Lemma trim_leading_spec (s : string) :
  exists l,
    s = (l ++ trim_leading s)%string
    /\ all_blank l = true
    /\ starts_blank (trim_leading s) = false.
Proof.
  induction s as [|c s (l & Hl & Hb & Hs)].
  - exists "". repeat split.
  - simpl. destruct (is_blank c) eqn:E.
    + exists (String c l). simpl. rewrite E, Hb. repeat split; [|exact Hs].
      now rewrite <- Hl.
    + exists "". simpl. repeat split. exact E.
Qed.

Lemma trim_trailing_spec (s : string) :
  exists r,
    s = (trim_trailing s ++ r)%string
    /\ all_blank r = true
    /\ ends_blank (trim_trailing s) = false.
Proof.
  induction s as [|c s (r & Hr & Hb & He)].
  - exists "". repeat split.
  - simpl. destruct (trim_trailing s) as [|d t] eqn:Et.
    + simpl in Hr. subst r. destruct (is_blank c) eqn:E.
      * exists (String c s). simpl. rewrite E, Hb. repeat split.
      * exists s. simpl. repeat split; assumption.
    + exists r. split; [|split; [exact Hb | exact He]].
      simpl in Hr |- *. congruence.
Qed.

(** C3: the header deserializer splits the block into lines, skips every
    line without [':'], and for every other line inserts into the map the
    text before its first [':'] and the text after it, each trimmed of
    leading and trailing spaces and tabs only; a block of the line
    ["garbage"] followed by the line ["A: 1"] gives the map with the single
    entry [("A", "1")]. This holds whatever the header container is. Any
    string a [std::string] can hold is shorter than [npos]. *)
Theorem prepare_headers_parses_lines {H : Type} `{HeaderContainer H}
    (block : string) :
  size block < npos ->
  prepare_headers block
  = Return (emplace_all (flat_map spec_entry (spec_lines block)) no_headers)
  /\ (forall line, absent ":" line -> spec_entry line = [])
  /\ (forall line i,
         first_at ":" line i ->
         spec_entry line
         = [(trim_trailing (trim_leading (take i line)),
             trim_trailing (trim_leading (drop (S i) line)))])
  /\ prepare_headers ("garbage" ++ String "010" "A: 1")
     = Return (emplace "A" "1" no_headers)
  /\ prepare_headers (H := Multimap) ("garbage" ++ String "010" "A: 1")
     = Return [("A", "1")].
Proof.
  intros Hs. split; [|split; [|split; [|split]]].
  - destruct (prepare_headers_spec block) as (m & -> & Hm). now rewrite (Hm Hs).
  - intros line Ha. unfold spec_entry. now rewrite absent_first_occurrence.
  - intros line i Hf. unfold spec_entry.
    now rewrite (first_at_first_occurrence _ _ _ Hf).
  - destruct (prepare_headers_spec ("garbage" ++ String "010" "A: 1"))
      as (m & -> & Hm).
    now rewrite Hm.
  - reflexivity.
Qed.

Lemma prepare_headers_parses_lines_witness :
  prepare_headers (H := Multimap) ("garbage" ++ String "010" "A: 1")
  = Return (emplace_all
              (flat_map spec_entry
                 (spec_lines ("garbage" ++ String "010" "A: 1"))) no_headers)
  /\ (forall line, absent ":" line -> spec_entry line = [])
  /\ (forall line i,
         first_at ":" line i ->
         spec_entry line
         = [(trim_trailing (trim_leading (take i line)),
             trim_trailing (trim_leading (drop (S i) line)))])
  /\ prepare_headers (H := Multimap) ("garbage" ++ String "010" "A: 1")
     = Return (emplace "A" "1" no_headers)
  /\ prepare_headers (H := Multimap) ("garbage" ++ String "010" "A: 1")
     = Return [("A", "1")].
Proof.
  apply (prepare_headers_parses_lines (H := Multimap)
           ("garbage" ++ String "010" "A: 1")).
  reflexivity.
Defined.

(** ** The request functions, run against a transport *)

Lemma SetupHttpClient_Return (url : string) :
  exists domain path,
    decompose url = Return (domain, path)
    /\ SetupHttpClient url
       = Return (set_follow_location true
                   (set_read_timeout 10 0 (Client_new (c_str domain))), path).
Proof.
  destruct (decompose_stages url) as (_ & domain & path & Hd & _).
  exists domain, path. split; [exact Hd|].
  unfold SetupHttpClient. now rewrite Hd.
Qed.

Lemma HandleHttpError_throws (res : Result) (request_type : string) :
  HandleHttpError res request_type
  = Throw (runtime_error ("HTTP " ++ request_type ++ " request failed. "
                          ++ error_text (res_error res))).
Proof.
  unfold HandleHttpError. simpl. now rewrite app_assoc_str.
Qed.

Section Run.

Context {World H : Type} `{HeaderContainer H}.
Variable transport : Client -> Request H -> World -> Result * World.

Lemma http_get_run (input : string) (w : World) :
  exists domain path,
    decompose input = Return (domain, path)
    /\ let client := set_follow_location true
                       (set_read_timeout 10 0 (Client_new (c_str domain))) in
       let reply := transport client (Get (c_str path)) w in
       HTTPGetRequestFunction transport input w
       = (match res_response (fst reply) with
          | Some r =>
              if Response.status r =? 200 then Return (Response.body r)
              else Throw (runtime_error
                     ("HTTP GET error: " ++ to_string (Response.status r)
                      ++ " - " ++ Response.reason r))
          | None =>
              Throw (runtime_error
                ("HTTP GET request failed. " ++ error_text (res_error (fst reply))))
          end, snd reply).
Proof.
  destruct (SetupHttpClient_Return input) as (domain & path & Hd & Hs).
  exists domain, path. split; [exact Hd|]. cbv zeta.
  unfold HTTPGetRequestFunction, bind, lift, send. rewrite Hs. cbn [fst snd].
  destruct (transport _ _ w) as [res w']. cbn [fst snd].
  destruct (res_response res) as [r|].
  - destruct (Response.status r =? 200); reflexivity.
  - rewrite HandleHttpError_throws. reflexivity.
Qed.

Lemma http_post_run (url headers body : string) (w : World) :
  exists domain path (header_map : H),
    decompose url = Return (domain, path)
    /\ prepare_headers headers = Return header_map
    /\ let client := set_follow_location true
                       (set_read_timeout 10 0 (Client_new (c_str domain))) in
       let reply := transport client
                      (Post (c_str path) header_map body "application/json") w in
       HTTPPostRequestFunction transport url headers body w
       = (match res_response (fst reply) with
          | Some r =>
              if Response.status r =? 200 then Return (Response.body r)
              else Throw (runtime_error
                     ("HTTP POST error: " ++ to_string (Response.status r)
                      ++ " - " ++ Response.reason r))
          | None =>
              Throw (runtime_error
                ("HTTP POST request failed. " ++ error_text (res_error (fst reply))))
          end, snd reply).
Proof.
  destruct (SetupHttpClient_Return url) as (domain & path & Hd & Hs).
  destruct (prepare_headers_spec headers) as (header_map & Hh & _).
  exists domain, path, header_map. split; [exact Hd|]. split; [exact Hh|].
  cbv zeta.
  unfold HTTPPostRequestFunction, bind, lift, send. rewrite Hs, Hh. cbn [fst snd].
  destruct (transport _ _ w) as [res w']. cbn [fst snd].
  destruct (res_response res) as [r|].
  - destruct (Response.status r =? 200); reflexivity.
  - rewrite HandleHttpError_throws. reflexivity.
Qed.

End Run.

(** C1: for every row, [http_get] returns the response body exactly when the
    transport yields a response whose status is 200; for a response with any
    other status it raises an error whose message carries the decimal status
    code and the reason phrase; when the transport yields no response it
    raises an error carrying the message of the error classifier. The URL
    set-up succeeds and exactly this one request decides the outcome. *)
Theorem http_get_outcome {World H : Type}
    (transport : Client -> Request H -> World -> Result * World)
    (input : string) (w : World) :
  exists client path,
    SetupHttpClient input = Return (client, path)
    /\ let reply := transport client (Get (c_str path)) w in
       HTTPGetRequestFunction transport input w
       = (match res_response (fst reply) with
          | Some r =>
              if Response.status r =? 200 then Return (Response.body r)
              else Throw (runtime_error
                     ("HTTP GET error: " ++ to_string (Response.status r)
                      ++ " - " ++ Response.reason r))
          | None =>
              Throw (runtime_error
                ("HTTP GET request failed. " ++ error_text (res_error (fst reply))))
          end, snd reply).
Proof.
  destruct (http_get_run transport input w) as (domain & path & Hd & Hrun).
  destruct (SetupHttpClient_Return input) as (domain' & path' & Hd' & Hs).
  rewrite Hd in Hd'. injection Hd' as <- <-.
  eexists. exists path. split; [exact Hs | exact Hrun].
Qed.

(** C4: the error classifier is a total mapping from error codes to
    messages: [HandleHttpError] raises the request prefix followed by the
    text of the code; the texts of the eleven codes it names are pairwise
    distinct and none is the Unknown text; every other code gets the Unknown
    text; every code is one of the eleven or another one. A transport that
    fails with a connection error makes [http_get] raise the connection
    message. *)
Theorem error_classification :
  (forall res request_type,
      HandleHttpError res request_type
      = Throw (runtime_error ("HTTP " ++ request_type ++ " request failed. "
                              ++ error_text (res_error res))))
  /\ List.length named_errors = 11%nat
  /\ NoDup (map error_text named_errors)
  /\ ~ In "Unknown error." (map error_text named_errors)
  /\ (forall code, error_text (OtherError code) = "Unknown error.")
  /\ (forall e, In e named_errors \/ exists code, e = OtherError code)
  /\ error_text Connection = "Connection error."
  /\ (forall (World H : Type) (url : string) (w : World),
         HTTPGetRequestFunction (H := H) (failing Connection) url w
         = (Throw (runtime_error "HTTP GET request failed. Connection error."), w)).
Proof.
  split; [exact HandleHttpError_throws|].
  split; [reflexivity|].
  split.
  { unfold named_errors. cbn [map error_text].
    repeat (constructor; [cbn [In]; intuition discriminate|]). constructor. }
  split.
  { unfold named_errors. cbn [map error_text In]. intuition discriminate. }
  split; [reflexivity|].
  split.
  { intros e. destruct e; cbn [named_errors In]; try (left; tauto).
    right. now eexists. }
  split; [reflexivity|].
  intros World H url w.
  destruct (http_get_run (H := H) (failing Connection) url w)
    as (domain & path & _ & Hrun).
  exact Hrun.
Qed.

(** C5: for every row, [http_post] makes exactly one request, and that
    request carries the header map parsed from the header block, the body
    string unchanged and the content type ["application/json"], whatever the
    inputs; with the header block ["X-Test: 1"] and the body ["{}"] the map
    it forwards is the one with the single entry [("X-Test", "1")]. *)
Theorem http_post_forwards {H : Type} `{HeaderContainer H}
    (respond : Client -> Request H -> Result)
    (url headers body : string) (log : list (Call H)) :
  (exists client path header_map,
      SetupHttpClient url = Return (client, path)
      /\ prepare_headers headers = Return header_map
      /\ snd (HTTPPostRequestFunction (recording respond) url headers body log)
         = (log ++ [(client,
                     Post (c_str path) header_map body "application/json")])%list)
  /\ (exists client path,
         SetupHttpClient url = Return (client, path)
         /\ snd (HTTPPostRequestFunction (recording respond) url "X-Test: 1" "{}" log)
            = (log ++ [(client,
                        Post (c_str path) (emplace "X-Test" "1" no_headers) "{}"
                          "application/json")])%list).
Proof.
  destruct (SetupHttpClient_Return url) as (domain & path & Hd & Hs).
  split.
  - destruct (http_post_run (recording respond) url headers body log)
      as (domain' & path' & header_map & Hd' & Hh & Hrun).
    rewrite Hd in Hd'. injection Hd' as <- <-.
    eexists. exists path, header_map.
    split; [exact Hs|]. split; [exact Hh|].
    rewrite Hrun. reflexivity.
  - destruct (http_post_run (recording respond) url "X-Test: 1" "{}" log)
      as (domain' & path' & header_map & Hd' & Hh & Hrun).
    rewrite Hd in Hd'. injection Hd' as <- <-.
    assert (prepare_headers "X-Test: 1" = Return (emplace "X-Test" "1" no_headers))
      as Hone by reflexivity.
    rewrite Hone in Hh. injection Hh as <-.
    eexists. exists path. split; [exact Hs|].
    rewrite Hrun. reflexivity.
Qed.

(** C9: for every invocation of [http_get] and of [http_post], the client
    that reaches the transport with the request is the one [SetupHttpClient]
    built, and its read timeout has been set to exactly 10 seconds and 0
    microseconds and redirect following has been switched on. *)
Theorem request_uses_configured_client {H : Type} `{HeaderContainer H}
    (respond : Client -> Request H -> Result)
    (url headers body : string) (log : list (Call H)) :
  (exists client path,
      SetupHttpClient url = Return (client, path)
      /\ read_timeout client = Some (10, 0)
      /\ follow_location client = Some true
      /\ (exists req,
             snd (HTTPGetRequestFunction (recording respond) url log)
             = (log ++ [(client, req)])%list)
      /\ (exists req,
             snd (HTTPPostRequestFunction (recording respond) url headers body log)
             = (log ++ [(client, req)])%list)).
Proof.
  destruct (SetupHttpClient_Return url) as (domain & path & Hd & Hs).
  eexists. exists path. split; [exact Hs|].
  split; [reflexivity|]. split; [reflexivity|]. split.
  - destruct (http_get_run (recording respond) url log)
      as (domain' & path' & Hd' & Hrun).
    rewrite Hd in Hd'. injection Hd' as <- <-.
    eexists. rewrite Hrun. reflexivity.
  - destruct (http_post_run (recording respond) url headers body log)
      as (domain' & path' & header_map & Hd' & Hh & Hrun).
    rewrite Hd in Hd'. injection Hd' as <- <-.
    eexists. rewrite Hrun. reflexivity.
Qed.

(** C10: [HandleHttpError] raises on every error code and never returns, so
    nothing sequenced after it runs; whenever the request a lambda makes
    gets no response, whatever the transport does with other requests,
    [http_get] and [http_post] raise and do not return the empty string
    written after the error-handling branch. *)
Theorem transport_failure_always_raises {World H : Type} `{HeaderContainer H}
    (transport : Client -> Request H -> World -> Result * World)
    (url headers body : string) (w : World) :
  (forall res request_type,
      exists msg, HandleHttpError res request_type = Throw (runtime_error msg))
  /\ (forall res request_type (k : unit -> M World string) (w0 : World),
         exists msg,
           bind (lift (HandleHttpError res request_type)) k w0
           = (Throw (runtime_error msg), w0))
  /\ (exists client path header_map,
         SetupHttpClient url = Return (client, path)
         /\ prepare_headers headers = Return header_map
         /\ (res_response (fst (transport client (Get (c_str path)) w)) = None ->
             (exists msg,
                 fst (HTTPGetRequestFunction transport url w)
                 = Throw (runtime_error msg))
             /\ fst (HTTPGetRequestFunction transport url w) <> Return "")
         /\ (res_response
               (fst (transport client
                       (Post (c_str path) header_map body "application/json") w))
             = None ->
             (exists msg,
                 fst (HTTPPostRequestFunction transport url headers body w)
                 = Throw (runtime_error msg))
             /\ fst (HTTPPostRequestFunction transport url headers body w)
                <> Return "")).
Proof.
  split; [intros; rewrite HandleHttpError_throws; now eexists|].
  split.
  { intros res request_type k w0. unfold bind, lift.
    rewrite HandleHttpError_throws. now eexists. }
  destruct (SetupHttpClient_Return url) as (domain & path & Hd & Hs).
  destruct (http_get_run transport url w) as (domain1 & path1 & Hd1 & Hget).
  destruct (http_post_run transport url headers body w)
    as (domain2 & path2 & header_map & Hd2 & Hh & Hpost).
  rewrite Hd in Hd1, Hd2. injection Hd1 as <- <-. injection Hd2 as <- <-.
  cbv zeta in Hget, Hpost.
  eexists. exists path, header_map.
  split; [exact Hs|]. split; [exact Hh|]. split.
  - intros Hfail. rewrite Hget, Hfail. cbn [fst].
    split; [now eexists | discriminate].
  - intros Hfail. rewrite Hpost, Hfail. cbn [fst].
    split; [now eexists | discriminate].
Qed.

Lemma transport_failure_always_raises_witness :
  ((exists msg,
       fst (HTTPGetRequestFunction (H := Multimap)
              (failing_for "down.example" Read (Response.mk 200 "OK" ""))
              "http://down.example/x" tt)
       = Throw (runtime_error msg))
   /\ fst (HTTPGetRequestFunction (H := Multimap)
             (failing_for "down.example" Read (Response.mk 200 "OK" ""))
             "http://down.example/x" tt) <> Return "")
  /\ ((exists msg,
          fst (HTTPPostRequestFunction (H := Multimap)
                 (failing_for "down.example" Read (Response.mk 200 "OK" ""))
                 "http://down.example/x" "A: 1" "{}" tt)
          = Throw (runtime_error msg))
      /\ fst (HTTPPostRequestFunction (H := Multimap)
                (failing_for "down.example" Read (Response.mk 200 "OK" ""))
                "http://down.example/x" "A: 1" "{}" tt) <> Return "").
Proof.
  destruct (transport_failure_always_raises (H := Multimap)
              (failing_for "down.example" Read (Response.mk 200 "OK" ""))
              "http://down.example/x" "A: 1" "{}" tt)
    as (_ & _ & client & path & header_map & Hs & Hh & Hget & Hpost).
  assert (SetupHttpClient "http://down.example/x"
          = Return (set_follow_location true
                      (set_read_timeout 10 0 (Client_new "down.example")), "/x"))
    as Hs' by reflexivity.
  rewrite Hs' in Hs. injection Hs as <- <-.
  split; [apply Hget | apply Hpost]; reflexivity.
Defined.

(** ** The header container: a multimap ordered by [ci_less] *)

Ltac ci_cases x y :=
  destruct (N.ltb_spec (tolower x) (tolower y));
  destruct (N.ltb_spec (tolower y) (tolower x)).

Lemma ci_less_irrefl (s : string) : ci_less s s = false.
Proof.
  induction s as [|x s IH]; simpl; [reflexivity|].
  now rewrite N.ltb_irrefl.
Qed.

Lemma ci_less_trans (a : string) :
  forall b c, ci_less a b = true -> ci_less b c = true -> ci_less a c = true.
Proof.
  induction a as [|x a IH]; intros [|y b] [|z c]; simpl;
    try discriminate; try reflexivity.
  ci_cases x y; ci_cases y z; ci_cases x z;
    try discriminate; try reflexivity; try lia.
  apply IH.
Qed.

Lemma ci_less_negtrans (a : string) :
  forall b c, ci_less a b = false -> ci_less b c = false -> ci_less a c = false.
Proof.
  induction a as [|x a IH]; intros [|y b] [|z c]; simpl;
    try discriminate; try reflexivity.
  ci_cases x y; ci_cases y z; ci_cases x z;
    try discriminate; try reflexivity; try lia.
  apply IH.
Qed.

Lemma ci_less_asym (a b : string) : ci_less a b = true -> ci_less b a = false.
Proof.
  intros H. destruct (ci_less b a) eqn:E; [|reflexivity].
  pose proof (ci_less_trans _ _ _ H E) as Haa.
  now rewrite ci_less_irrefl in Haa.
Qed.

Lemma emplace_perm (key value : string) (m : Multimap) :
  Permutation (multimap_emplace key value m) ((key, value) :: m).
Proof.
  induction m as [|[k v] r IH]; simpl.
  - apply Permutation_refl.
  - destruct (ci_less key k).
    + apply Permutation_refl.
    + eapply perm_trans; [apply perm_skip, IH | apply perm_swap].
Qed.

Lemma emplace_all_perm (entries : list (string * string)) :
  forall m : Multimap, Permutation (emplace_all entries m) (m ++ entries)%list.
Proof.
  induction entries as [|[k v] es IH]; intros m; simpl.
  - rewrite app_nil_r. apply Permutation_refl.
  - eapply perm_trans; [apply IH|].
    eapply perm_trans;
      [apply Permutation_app_tail, emplace_perm|].
    simpl. apply Permutation_middle.
Qed.

Lemma emplace_sorted (key value : string) (m : Multimap) :
  StronglySorted key_le m -> StronglySorted key_le (multimap_emplace key value m).
Proof.
  induction m as [|[k v] r IH]; intros Hs; simpl.
  - constructor; constructor.
  - inversion Hs as [|? ? Hr Hall]; subst.
    destruct (ci_less key k) eqn:E.
    + constructor; [exact Hs|]. constructor.
      * unfold key_le; simpl. now apply ci_less_asym.
      * rewrite Forall_forall in *. intros x Hx. specialize (Hall x Hx).
        unfold key_le in *; simpl in *.
        destruct (ci_less (fst x) key) eqn:Ex; [|reflexivity].
        pose proof (ci_less_trans _ _ _ Ex E). congruence.
    + constructor; [now apply IH|].
      eapply Permutation_Forall; [apply Permutation_sym, emplace_perm|].
      constructor; [exact E | exact Hall].
Qed.

Lemma emplace_all_sorted (entries : list (string * string)) :
  forall m : Multimap,
    StronglySorted key_le m -> StronglySorted key_le (emplace_all entries m).
Proof.
  induction entries as [|[k v] es IH]; intros m Hs; simpl; [exact Hs|].
  apply IH. now apply emplace_sorted.
Qed.

Lemma ci_equiv_less (k0 k x : string) :
  ci_equiv k0 k = true -> ci_less k x = true -> ci_equiv k0 x = false.
Proof.
  unfold ci_equiv. intros Heq Hlt.
  apply andb_true_iff in Heq as [H1 H2].
  apply negb_true_iff in H1, H2.
  destruct (ci_less k0 x) eqn:E; [reflexivity|].
  pose proof (ci_less_negtrans _ _ _ H2 E). congruence.
Qed.

Lemma emplace_stable (k0 key value : string) (m : Multimap) :
  StronglySorted key_le m ->
  filter (fun e => ci_equiv k0 (fst e)) (multimap_emplace key value m)
  = (filter (fun e => ci_equiv k0 (fst e)) m
     ++ filter (fun e => ci_equiv k0 (fst e)) [(key, value)])%list.
Proof.
  induction m as [|[k v] r IH]; intros Hs.
  - reflexivity.
  - inversion Hs as [|? ? Hr Hall]; subst.
    cbn [multimap_emplace]. destruct (ci_less key k) eqn:E.
    + cbn [filter fst]. destruct (ci_equiv k0 key) eqn:Ek.
      * assert (forall x, In x ((k, v) :: r) -> ci_equiv k0 (fst x) = false) as Hnone.
        { intros x Hx. apply (ci_equiv_less k0 key); [exact Ek|].
          destruct Hx as [<-|Hx]; [exact E|].
          rewrite Forall_forall in Hall. specialize (Hall x Hx).
          unfold key_le in Hall; simpl in Hall.
          destruct (ci_less key (fst x)) eqn:Ex; [reflexivity|].
          pose proof (ci_less_negtrans _ _ _ Ex Hall). congruence. }
        assert (filter (fun e => ci_equiv k0 (fst e)) ((k, v) :: r) = []) as Hnil.
        { clear -Hnone. induction ((k, v) :: r) as [|x l IHl]; [reflexivity|].
          simpl. rewrite (Hnone x (or_introl eq_refl)).
          apply IHl. intros y Hy. apply Hnone. now right. }
        cbn [filter fst] in Hnil. rewrite Hnil. reflexivity.
      * now rewrite app_nil_r.
    + cbn [filter fst]. rewrite (IH Hr).
      destruct (ci_equiv k0 k); reflexivity.
Qed.

Lemma emplace_all_stable (k0 : string) (entries : list (string * string)) :
  forall m : Multimap,
    StronglySorted key_le m ->
    filter (fun e => ci_equiv k0 (fst e)) (emplace_all entries m)
    = (filter (fun e => ci_equiv k0 (fst e)) m
       ++ filter (fun e => ci_equiv k0 (fst e)) entries)%list.
Proof.
  induction entries as [|[k v] es IH]; intros m Hs.
  - simpl. now rewrite app_nil_r.
  - change (emplace_all ((k, v) :: es) m)
      with (emplace_all es (multimap_emplace k v m)).
    rewrite IH by now apply emplace_sorted.
    rewrite (emplace_stable k0 k v m Hs).
    rewrite <- app_assoc. cbn [filter fst app].
    destruct (ci_equiv k0 k); reflexivity.
Qed.

(** C6, as stated, fails: for the block of the line ["B: 1"] followed by
    the line ["A: 2"] the entries of the source lines are B then A, and the
    map iterates A then B. *)
Lemma header_map_order_counterexample :
  prepare_headers (H := Multimap) ("B: 1" ++ String "010" "A: 2")
  = Return [("A", "2"); ("B", "1")]
  /\ header_entries ("B: 1" ++ String "010" "A: 2") = [("B", "1"); ("A", "2")]
  /\ ~ (exists header_map : Multimap,
           prepare_headers ("B: 1" ++ String "010" "A: 2") = Return header_map
           /\ entries header_map
              = header_entries ("B: 1" ++ String "010" "A: 2")).
Proof.
  split; [reflexivity|]. split; [reflexivity|].
  intros (header_map & Hm & He).
  vm_compute in Hm. injection Hm as <-.
  vm_compute in He. discriminate He.
Qed.

(** C6, amended: the deserializer inserts the entries in the order of their
    source lines, and the header map holds exactly those entries, names and
    values as written and duplicates retained; iterating it yields them
    ordered by name compared without regard to case, and entries whose names
    are equal up to case come in the order of their source lines. Any string
    a [std::string] can hold is shorter than [npos]. *)
Theorem header_map_iteration_order (block : string) :
  size block < npos ->
  exists header_map : Multimap,
    prepare_headers block = Return header_map
    /\ header_map = emplace_all (header_entries block) no_headers
    /\ Permutation (entries header_map) (header_entries block)
    /\ StronglySorted key_le (entries header_map)
    /\ (forall name,
           filter (fun e => ci_equiv name (fst e)) (entries header_map)
           = filter (fun e => ci_equiv name (fst e)) (header_entries block)).
Proof.
  intros Hs. destruct (prepare_headers_spec (H := Multimap) block) as (m & Hm & Hspec).
  exists m. split; [exact Hm|]. rewrite (Hspec Hs). split; [reflexivity|].
  cbn [entries Headers]. split; [|split].
  - apply (emplace_all_perm (header_entries block) []).
  - apply emplace_all_sorted. constructor.
  - intros name. apply (emplace_all_stable name (header_entries block) []).
    constructor.
Qed.

Lemma header_map_iteration_order_witness :
  exists header_map : Multimap,
    prepare_headers ("B: 1" ++ String "010" "A: 2") = Return header_map
    /\ header_map
       = emplace_all (header_entries ("B: 1" ++ String "010" "A: 2")) no_headers
    /\ Permutation (entries header_map)
         (header_entries ("B: 1" ++ String "010" "A: 2"))
    /\ StronglySorted key_le (entries header_map)
    /\ (forall name,
           filter (fun e => ci_equiv name (fst e)) (entries header_map)
           = filter (fun e => ci_equiv name (fst e))
               (header_entries ("B: 1" ++ String "010" "A: 2"))).
Proof.
  apply (header_map_iteration_order ("B: 1" ++ String "010" "A: 2")).
  reflexivity.
Defined.

(** * Further properties of the code *)

(** ** Characters of a string *)

Lemma mem_app (c : ascii) (s t : string) :
  mem c (s ++ t) = mem c s || mem c t.
Proof.
  induction s as [|a s IH]; cbn [append mem]; [reflexivity|].
  now rewrite IH, orb_assoc.
Qed.

Lemma mem_take (c : ascii) (n : nat) (s : string) :
  mem c s = false -> mem c (take n s) = false.
Proof.
  intros Hm. rewrite <- (take_drop n s), mem_app in Hm.
  now apply orb_false_iff in Hm.
Qed.

Lemma mem_drop (c : ascii) (n : nat) (s : string) :
  mem c s = false -> mem c (drop n s) = false.
Proof.
  intros Hm. rewrite <- (take_drop n s), mem_app in Hm.
  now apply orb_false_iff in Hm.
Qed.

Lemma prefix_char (c a : ascii) (r : string) :
  prefix (String c "") (String a r) = Ascii.eqb c a.
Proof.
  cbn [prefix]. destruct (ascii_dec c a) as [->|Hne].
  - rewrite Ascii.eqb_refl. now destruct r.
  - symmetry. now apply Ascii.eqb_neq.
Qed.

Lemma first_occurrence_char (c : ascii) (s : string) :
  match first_occurrence (String c "") s with
  | Some j => mem c (take j s) = false /\ (j < String.length s)%nat
  | None => mem c s = false
  end.
Proof.
  induction s as [|a s IH]; rewrite first_occurrence_eq.
  - reflexivity.
  - rewrite prefix_char. cbn [mem].
    destruct (Ascii.eqb c a) eqn:E.
    + split; [reflexivity | simpl; lia].
    + destruct (first_occurrence (String c "") s) as [j|]; cbn [option_map].
      * destruct IH as [IH Hj]. cbn [take mem String.length].
        rewrite E, IH. split; [reflexivity | lia].
      * now rewrite IH.
Qed.

Lemma first_occurrence_char_None (c : ascii) (s : string) :
  mem c s = false -> first_occurrence (String c "") s = None.
Proof.
  intros Hm. pose proof (first_occurrence_char c s) as Hf.
  destruct (first_occurrence (String c "") s) as [j|] eqn:E; [|reflexivity].
  destruct (first_occurrence_drop _ _ _ E) as [post Hpost].
  rewrite <- (take_drop j s), Hpost, mem_app in Hm.
  apply orb_false_iff in Hm as [_ Hm]. cbn [append mem] in Hm.
  now rewrite Ascii.eqb_refl in Hm.
Qed.

Lemma c_str_no_nul (s : string) : mem zero (c_str s) = false.
Proof.
  induction s as [|a s IH]; cbn [c_str]; [reflexivity|].
  destruct (Ascii.eqb a zero) eqn:E; [reflexivity|].
  cbn [mem]. rewrite IH, orb_false_r.
  apply Ascii.eqb_neq. apply Ascii.eqb_neq in E. congruence.
Qed.

Lemma c_str_id (s : string) : mem zero s = false -> c_str s = s.
Proof.
  induction s as [|a s IH]; cbn [c_str mem]; [reflexivity|].
  intros Hm. apply orb_false_iff in Hm as [Ha Hs].
  rewrite Ascii.eqb_sym, Ha. now rewrite IH.
Qed.

Lemma c_str_prefix (s : string) : exists rest, s = (c_str s ++ rest)%string.
Proof.
  induction s as [|a s [rest IH]]; cbn [c_str].
  - now exists "".
  - destruct (Ascii.eqb a zero).
    + now exists (String a s).
    + exists rest. cbn [append]. now rewrite <- IH.
Qed.

(** ** More on [SetupHttpClient] *)

(** The split of what follows the scheme. *)
Lemma decompose_after_scheme (pre rest : string) :
  size (pre ++ "://" ++ rest) < npos ->
  mem ":" pre = false ->
  decompose (pre ++ "://" ++ rest)
  = Return (match first_occurrence "/" rest with
            | Some j => (take j rest, drop j rest)
            | None => (rest, "/")
            end).
Proof.
  intros Hs Hpre.
  destruct (decompose_stages (pre ++ "://" ++ rest))
    as (mod_url & domain & path & -> & _ & Hst).
  destruct (Hst Hs) as [H1 H2]. clear Hst.
  rewrite (first_occurrence_after ":" "//" pre rest Hpre) in H1.
  assert (mod_url = rest) as ->.
  { rewrite H1.
    replace (String.length pre + 3)%nat
      with (String.length (pre ++ "://")) by (rewrite length_app; reflexivity).
    rewrite <- (app_assoc_str pre "://" rest). apply drop_app_length. }
  destruct (first_occurrence "/" rest) as [j|]; destruct H2 as [-> ->]; reflexivity.
Qed.

(** X1: http_post returns the response body exactly when the transport
    yields a response whose status is 200; any other status raises
    ["HTTP POST error: <status> - <reason>"], and no response raises
    ["HTTP POST request failed. "] followed by the text of the error code.
    The set-up and the header parsing succeed, and this one request decides
    the outcome and the state left behind. *)
Theorem http_post_outcome {World H : Type} `{HeaderContainer H}
    (transport : Client -> Request H -> World -> Result * World)
    (url headers body : string) (w : World) :
  exists client path header_map,
    SetupHttpClient url = Return (client, path)
    /\ prepare_headers headers = Return header_map
    /\ let reply := transport client
                      (Post (c_str path) header_map body "application/json") w in
       HTTPPostRequestFunction transport url headers body w
       = (match res_response (fst reply) with
          | Some r =>
              if Response.status r =? 200 then Return (Response.body r)
              else Throw (runtime_error
                     ("HTTP POST error: " ++ to_string (Response.status r)
                      ++ " - " ++ Response.reason r))
          | None =>
              Throw (runtime_error
                ("HTTP POST request failed. "
                 ++ error_text (res_error (fst reply))))
          end, snd reply).
Proof.
  destruct (http_post_run transport url headers body w)
    as (domain & path & header_map & Hd & Hh & Hrun).
  destruct (SetupHttpClient_Return url) as (domain' & path' & Hd' & Hs).
  rewrite Hd in Hd'. injection Hd' as <- <-.
  eexists. exists path, header_map.
  split; [exact Hs|]. split; [exact Hh | exact Hrun].
Qed.

(** X2: whatever the URL, the path that reaches the transport, in a GET as
    in a POST, starts with ['/'] and has no NUL character in it: it is the
    decomposed path cut at its first NUL. *)
Theorem forwarded_path_starts_with_slash {H : Type} `{HeaderContainer H}
    (respond : Client -> Request H -> Result)
    (url headers body : string) (log : list (Call H)) :
  exists client domain path tail get_req post_req,
    decompose url = Return (domain, path)
    /\ snd (HTTPGetRequestFunction (recording respond) url log)
       = (log ++ [(client, get_req)])%list
    /\ snd (HTTPPostRequestFunction (recording respond) url headers body log)
       = (log ++ [(client, post_req)])%list
    /\ request_path get_req = String "/" tail
    /\ request_path post_req = String "/" tail
    /\ String "/" tail = c_str path
    /\ mem zero tail = false.
Proof.
  destruct (decompose_stages url) as (_ & domain & path & Hd & [post Hpost] & _).
  destruct (http_get_run (recording respond) url log)
    as (domain1 & path1 & Hd1 & Hget).
  destruct (http_post_run (recording respond) url headers body log)
    as (domain2 & path2 & header_map & Hd2 & _ & Hpost_run).
  rewrite Hd in Hd1, Hd2. injection Hd1 as <- <-. injection Hd2 as <- <-.
  cbv zeta in Hget, Hpost_run.
  eexists. exists domain, path, (c_str post). do 2 eexists.
  split; [exact Hd|].
  split; [rewrite Hget; reflexivity|].
  split; [rewrite Hpost_run; reflexivity|].
  subst path. cbn [request_path c_str].
  repeat split. apply c_str_no_nul.
Qed.

(** X3: the scheme plays no part: two URLs that differ only in what comes
    before the first ["://"] give the same client and the same path, so
    ["https://..."] is set up exactly like ["http://..."]. *)
Theorem scheme_is_ignored (scheme1 scheme2 rest : string) :
  size (scheme1 ++ "://" ++ rest) < npos ->
  size (scheme2 ++ "://" ++ rest) < npos ->
  mem ":" scheme1 = false ->
  mem ":" scheme2 = false ->
  SetupHttpClient (scheme1 ++ "://" ++ rest)
  = SetupHttpClient (scheme2 ++ "://" ++ rest).
Proof.
  intros Hs1 Hs2 Hm1 Hm2. unfold SetupHttpClient.
  now rewrite (decompose_after_scheme scheme1 rest Hs1 Hm1),
              (decompose_after_scheme scheme2 rest Hs2 Hm2).
Qed.

Lemma scheme_is_ignored_witness :
  SetupHttpClient ("http" ++ "://" ++ "example.com/a?b=1")
  = SetupHttpClient ("https" ++ "://" ++ "example.com/a?b=1").
Proof.
  apply (scheme_is_ignored "http" "https" "example.com/a?b=1"); reflexivity.
Defined.

(** X4: what precedes the first ["://"] is dropped even when it is not a
    scheme: a URL written without scheme whose path or query holds ["://"]
    loses its host, and the request goes to what follows that ["://"]. *)
Theorem separator_inside_path_takes_over (before after : string) :
  size (before ++ "://" ++ after) < npos ->
  mem ":" before = false ->
  mem "/" after = false ->
  decompose (before ++ "://" ++ after) = Return (after, "/").
Proof.
  intros Hs Hb Ha. rewrite (decompose_after_scheme before after Hs Hb).
  now rewrite (first_occurrence_char_None "/" after Ha).
Qed.

Lemma separator_inside_path_takes_over_witness :
  decompose ("example.com/login?next=http" ++ "://" ++ "other.org")
  = Return ("other.org", "/").
Proof.
  apply (separator_inside_path_takes_over
           "example.com/login?next=http" "other.org"); reflexivity.
Defined.

(** X5: the host never contains a ['/']. *)
Theorem domain_has_no_slash (url : string) :
  size url < npos ->
  exists domain path,
    decompose url = Return (domain, path) /\ mem "/" domain = false.
Proof.
  intros Hs.
  destruct (decompose_stages url) as (rest & domain & path & Hd & _ & Hst).
  destruct (Hst Hs) as [_ H2]. exists domain, path. split; [exact Hd|].
  pose proof (first_occurrence_char "/" rest) as Hc.
  destruct (first_occurrence "/" rest) as [j|].
  - destruct H2 as [-> _]. apply Hc.
  - destruct H2 as [-> _]. exact Hc.
Qed.

Lemma domain_has_no_slash_witness :
  exists domain path,
    decompose "http://host:8080/a/b" = Return (domain, path)
    /\ mem "/" domain = false.
Proof. apply (domain_has_no_slash "http://host:8080/a/b"). reflexivity. Defined.

(** X6: nothing of the URL is lost but the scheme: the URL is the dropped
    prefix (empty, or ending in ["://"]) followed by host and path, or, when
    nothing follows the host, by the host alone, the path being ["/"]. *)
Theorem decompose_reassembles (url : string) :
  size url < npos ->
  exists dropped domain path,
    decompose url = Return (domain, path)
    /\ (dropped = "" \/ exists scheme, dropped = (scheme ++ "://")%string)
    /\ (url = (dropped ++ domain ++ path)%string
        \/ (url = (dropped ++ domain)%string /\ path = "/")).
Proof.
  intros Hs.
  destruct (decompose_stages url) as (rest & domain & path & Hd & _ & Hst).
  destruct (Hst Hs) as [H1 H2]. clear Hst.
  assert (exists dropped,
    url = (dropped ++ rest)%string
    /\ (dropped = "" \/ exists scheme, dropped = (scheme ++ "://")%string))
    as (dropped & Hurl & Hdropped).
  { destruct (first_occurrence "://" url) as [i|] eqn:E.
    - apply first_occurrence_Some in E as [(pre & post & Hu & Hlen) _].
      exists (pre ++ "://")%string. split; [|right; now exists pre].
      rewrite H1, Hu, <- Hlen.
      replace (String.length pre + 3)%nat
        with (String.length (pre ++ "://")) by (rewrite length_app; reflexivity).
      rewrite <- (app_assoc_str pre "://" post) at 2.
      rewrite drop_app_length. now rewrite app_assoc_str.
    - exists "". split; [now rewrite H1 | now left]. }
  exists dropped, domain, path. split; [exact Hd|]. split; [exact Hdropped|].
  destruct (first_occurrence "/" rest) as [j|].
  - destruct H2 as [-> ->]. left. now rewrite take_drop.
  - destruct H2 as [-> ->]. right. now split.
Qed.

Lemma decompose_reassembles_witness :
  exists dropped domain path,
    decompose "http://host:8080/a/b" = Return (domain, path)
    /\ (dropped = "" \/ exists scheme, dropped = (scheme ++ "://")%string)
    /\ ("http://host:8080/a/b" = (dropped ++ domain ++ path)%string
        \/ ("http://host:8080/a/b" = (dropped ++ domain)%string /\ path = "/")).
Proof. apply (decompose_reassembles "http://host:8080/a/b"). reflexivity. Defined.

(** X7: the client is constructed from [domain.c_str()]: its host is the
    decomposed host cut at its first NUL character, has no NUL in it, and is
    the decomposed host itself when that has none. *)
Theorem client_host_is_c_str_of_domain (url : string) :
  exists client domain path,
    decompose url = Return (domain, path)
    /\ SetupHttpClient url = Return (client, path)
    /\ host client = c_str domain
    /\ mem zero (host client) = false
    /\ (exists cut, domain = (host client ++ cut)%string)
    /\ (mem zero domain = false -> host client = domain).
Proof.
  destruct (SetupHttpClient_Return url) as (domain & path & Hd & Hs).
  eexists. exists domain, path. split; [exact Hd|]. split; [exact Hs|].
  cbn [host set_follow_location set_read_timeout Client_new].
  split; [reflexivity|]. split; [apply c_str_no_nul|].
  split; [apply c_str_prefix | apply c_str_id].
Qed.

(** ** More on the header loop *)

Lemma getline_split_mem (c : ascii) (s : string) :
  mem c s = false ->
  mem c (fst (getline_split s)) = false /\ mem c (snd (getline_split s)) = false.
Proof.
  induction s as [|a s IH]; cbn [getline_split mem]; [now split|].
  intros Hm. apply orb_false_iff in Hm as [Ha Hs].
  destruct (Ascii.eqb a "010"); cbn [fst snd]; [now split|].
  destruct (IH Hs) as [H1 H2]. destruct (getline_split s) as [l r].
  cbn [fst snd mem] in *. now rewrite Ha, H1.
Qed.

Section HeaderLoopMore.

Context {H : Type} `{HeaderContainer H}.

Lemma header_loop_no_colon (fuel : nat) :
  forall (stream : string) (m : H),
    mem ":" stream = false -> header_loop fuel stream m = Return m.
Proof.
  induction fuel as [|fuel IH]; intros stream m Hm; [reflexivity|].
  destruct stream as [|c s]; [reflexivity|].
  cbn [header_loop getline].
  destruct (getline_split_mem ":" (String c s) Hm) as [Hh Hr].
  destruct (getline_split (String c s)) as [header rest]. cbn [fst snd] in *.
  unfold find_char, find. rewrite (first_occurrence_char_None ":" header Hh).
  cbn [pos_of]. rewrite Z.eqb_refl. cbn [negb]. now apply IH.
Qed.

Lemma header_loop_entries (stream : string) (m : H) :
  size stream < npos ->
  header_loop (String.length stream) stream m
  = Return (emplace_all (header_entries stream) m).
Proof.
  intros Hs.
  destruct (header_loop_spec (String.length stream) stream m (le_n _))
    as (m' & -> & Hm').
  now rewrite (Hm' Hs).
Qed.

End HeaderLoopMore.

Lemma spec_lines_app (b1 b2 : string) :
  spec_lines (b1 ++ String "010" b2) = (spec_lines b1 ++ spec_lines b2)%list.
Proof.
  induction b1 as [|c r IH]; cbn [append spec_lines].
  - reflexivity.
  - destruct (Ascii.eqb c "010"); rewrite IH; [reflexivity|].
    pose proof (spec_lines_nonempty r) as Hne.
    destruct (spec_lines r) as [|l ls]; [contradiction | reflexivity].
Qed.

Lemma header_entries_app (b1 b2 : string) :
  header_entries (b1 ++ String "010" b2)
  = (header_entries b1 ++ header_entries b2)%list.
Proof.
  unfold header_entries. rewrite spec_lines_app. apply flat_map_app.
Qed.

Lemma spec_lines_single (s : string) : mem "010" s = false -> spec_lines s = [s].
Proof.
  induction s as [|c r IH]; cbn [spec_lines mem]; [reflexivity|].
  intros Hm. apply orb_false_iff in Hm as [Hc Hr].
  rewrite Ascii.eqb_sym, Hc. now rewrite (IH Hr).
Qed.

Lemma header_entries_single (k v : string) :
  mem ":" k = false ->
  mem "010" k = false ->
  mem "010" v = false ->
  header_entries (k ++ String ":" v) = [(spec_trim k, spec_trim v)].
Proof.
  intros Hk Hnk Hnv. unfold header_entries.
  rewrite spec_lines_single
    by (rewrite mem_app; cbn [mem]; now rewrite Hnk, Hnv).
  cbn [flat_map]. rewrite app_nil_r. unfold spec_entry.
  pose proof (first_occurrence_after ":" "" k v Hk) as Hf.
  change (":" ++ v)%string with (String ":" v) in Hf. rewrite Hf.
  rewrite take_app_length.
  replace (S (String.length k)) with (String.length k + 1)%nat by lia.
  rewrite <- drop_drop, drop_app_length. reflexivity.
Qed.

(** X8: the header deserializer never throws, whatever the block and the
    container: no [substr] or [erase] of the loop is ever out of range.
    Neither lambda ever raises [std::out_of_range]. *)
Theorem header_parsing_never_throws {World H : Type} `{HeaderContainer H}
    (transport : Client -> Request H -> World -> Result * World)
    (url headers body : string) (w : World) :
  (exists header_map : H, prepare_headers headers = Return header_map)
  /\ (forall what,
         fst (HTTPGetRequestFunction transport url w) <> Throw (out_of_range what))
  /\ (forall what,
         fst (HTTPPostRequestFunction transport url headers body w)
         <> Throw (out_of_range what)).
Proof.
  split; [|split].
  - destruct (prepare_headers_spec (H := H) headers) as (m & Hm & _). now exists m.
  - intros what.
    destruct (http_get_run transport url w) as (domain & path & _ & Hrun).
    cbv zeta in Hrun. rewrite Hrun. cbn [fst].
    destruct (res_response _) as [r|]; [|discriminate].
    destruct (Response.status r =? 200); discriminate.
  - intros what.
    destruct (http_post_run transport url headers body w)
      as (domain & path & header_map & _ & _ & Hrun).
    cbv zeta in Hrun. rewrite Hrun. cbn [fst].
    destruct (res_response _) as [r|]; [|discriminate].
    destruct (Response.status r =? 200); discriminate.
Qed.

(** X9: a header block without any [':'], the empty block included, gives
    the empty map: nothing is inserted and nothing is reported. *)
Theorem block_without_colon_gives_no_headers {H : Type} `{HeaderContainer H}
    (block : string) :
  mem ":" block = false ->
  prepare_headers (H := H) block = Return no_headers.
Proof. intros Hm. now apply header_loop_no_colon. Qed.

Lemma block_without_colon_gives_no_headers_witness :
  prepare_headers (H := Multimap) ("Content-Type json" ++ String "010" "garbage")
  = Return no_headers.
Proof.
  apply (block_without_colon_gives_no_headers (H := Multimap)
           ("Content-Type json" ++ String "010" "garbage")).
  reflexivity.
Defined.

Lemma trim_leading_all_blank (s : string) :
  all_blank s = true -> trim_leading s = "".
Proof.
  induction s as [|c r IH]; cbn [all_blank trim_leading]; [reflexivity|].
  intros Hb. apply andb_true_iff in Hb as [Hc Hr]. rewrite Hc. now apply IH.
Qed.

(** X10: a block of one line splits at the first [':'] only: the name is
    what precedes it and the value all that follows, later colons included,
    each trimmed of spaces and tabs at both ends. The name is not checked:
    an empty or all-blank name gives an entry with the empty name. *)
Theorem single_header_line {H : Type} `{HeaderContainer H} (name value : string) :
  size (name ++ ":" ++ value) < npos ->
  mem ":" name = false ->
  mem "010" name = false ->
  mem "010" value = false ->
  prepare_headers (H := H) (name ++ ":" ++ value)
  = Return (emplace (trim_trailing (trim_leading name))
              (trim_trailing (trim_leading value)) no_headers)
  /\ (all_blank name = true ->
      prepare_headers (H := H) (name ++ ":" ++ value)
      = Return (emplace "" (trim_trailing (trim_leading value)) no_headers)).
Proof.
  intros Hs Hk Hnk Hnv.
  assert (prepare_headers (H := H) (name ++ ":" ++ value)
          = Return (emplace (trim_trailing (trim_leading name))
                      (trim_trailing (trim_leading value)) no_headers)) as Heq.
  { unfold prepare_headers. rewrite (header_loop_entries _ _ Hs).
    change (name ++ ":" ++ value)%string with (name ++ String ":" value)%string.
    now rewrite (header_entries_single name value Hk Hnk Hnv). }
  split; [exact Heq|].
  intros Hb. rewrite Heq. now rewrite (trim_leading_all_blank name Hb).
Qed.

Lemma single_header_line_witness :
  prepare_headers (H := Multimap)
    ((" " ++ String "009" "") ++ ":" ++ (" a:b: c" ++ String "009" ""))
  = Return (emplace (trim_trailing (trim_leading (" " ++ String "009" "")))
              (trim_trailing (trim_leading (" a:b: c" ++ String "009" "")))
              no_headers)
  /\ (all_blank (" " ++ String "009" "") = true ->
      prepare_headers (H := Multimap)
        ((" " ++ String "009" "") ++ ":" ++ (" a:b: c" ++ String "009" ""))
      = Return (emplace ""
                  (trim_trailing (trim_leading (" a:b: c" ++ String "009" "")))
                  no_headers)).
Proof.
  apply (single_header_line (H := Multimap)
           (" " ++ String "009" "") (" a:b: c" ++ String "009" ""));
    reflexivity.
Defined.

(** X11: parsing goes line by line with no memory but the map: the map of
    two blocks joined by a newline is what the loop builds from the second
    block when it starts from the map of the first; a newline at the end of
    a block changes nothing. *)
Theorem header_blocks_compose {H : Type} `{HeaderContainer H}
    (block1 block2 : string) :
  size (block1 ++ String "010" block2) < npos ->
  exists map1 : H,
    prepare_headers block1 = Return map1
    /\ prepare_headers (block1 ++ String "010" block2)
       = header_loop (String.length block2) block2 map1
    /\ prepare_headers (block1 ++ String "010" "") = Return map1.
Proof.
  intros Hs.
  assert (size block1 < npos /\ size block2 < npos
          /\ size (block1 ++ String "010" "") < npos) as (Hs1 & Hs2 & Hs3).
  { unfold size in *. rewrite !length_app in *. cbn [String.length] in *. lia. }
  exists (emplace_all (header_entries block1) no_headers).
  unfold prepare_headers.
  rewrite !header_loop_entries by assumption.
  rewrite !header_entries_app, !emplace_all_app.
  repeat split.
Qed.

Lemma header_blocks_compose_witness :
  exists map1 : Multimap,
    prepare_headers "B: 1" = Return map1
    /\ prepare_headers ("B: 1" ++ String "010" "A: 2")
       = header_loop (String.length "A: 2") "A: 2" map1
    /\ prepare_headers ("B: 1" ++ String "010" "") = Return map1.
Proof.
  apply (header_blocks_compose (H := Multimap) "B: 1" "A: 2"). reflexivity.
Defined.

(** ** What the parsed entries look like *)

Lemma starts_blank_trim_trailing (s : string) :
  starts_blank s = false -> starts_blank (trim_trailing s) = false.
Proof.
  destruct s as [|c r]; [reflexivity|]. cbn [starts_blank trim_trailing].
  intros Hc. destruct (trim_trailing r); [|exact Hc].
  rewrite Hc. exact Hc.
Qed.

Lemma mem_trim_leading (c : ascii) (s : string) :
  mem c s = false -> mem c (trim_leading s) = false.
Proof.
  intros Hm. destruct (trim_leading_spec s) as (l & Hl & _).
  rewrite Hl, mem_app in Hm. now apply orb_false_iff in Hm.
Qed.

Lemma mem_trim_trailing (c : ascii) (s : string) :
  mem c s = false -> mem c (trim_trailing s) = false.
Proof.
  intros Hm. destruct (trim_trailing_spec s) as (r & Hr & _).
  rewrite Hr, mem_app in Hm. now apply orb_false_iff in Hm.
Qed.

Lemma spec_trim_trimmed (s : string) :
  mem "010" s = false -> trimmed (spec_trim s).
Proof.
  intros Hm. unfold trimmed, spec_trim. split; [|split].
  - apply starts_blank_trim_trailing.
    now destruct (trim_leading_spec s) as (l & _ & _ & Hs).
  - now destruct (trim_trailing_spec (trim_leading s)) as (r & _ & _ & He).
  - now apply mem_trim_trailing, mem_trim_leading.
Qed.

Lemma spec_entry_clean (line : string) :
  mem "010" line = false -> Forall clean_entry (spec_entry line).
Proof.
  intros Hm. unfold spec_entry.
  pose proof (first_occurrence_char ":" line) as Hc.
  destruct (first_occurrence ":" line) as [i|]; constructor; [|constructor].
  destruct Hc as [Hc _]. unfold clean_entry. cbn [fst snd]. split; [|split].
  - now apply spec_trim_trimmed, mem_take.
  - now apply mem_trim_trailing, mem_trim_leading.
  - now apply spec_trim_trimmed, mem_drop.
Qed.

Lemma header_entries_clean (block : string) :
  Forall clean_entry (header_entries block).
Proof.
  unfold header_entries.
  pose proof (spec_lines_no_newline block) as Hl.
  induction Hl as [|line ls Hline _ IH]; cbn [flat_map]; [constructor|].
  apply Forall_app. split; [now apply spec_entry_clean | exact IH].
Qed.

(** X12: every entry the deserializer passes to [emplace] is clean:
    neither its name nor its value starts or ends with a space or a tab or
    holds a newline, and its name holds no [':']. *)
Theorem parsed_entries_are_clean {H : Type} `{HeaderContainer H}
    (block : string) :
  size block < npos ->
  exists emplaced,
    prepare_headers (H := H) block = Return (emplace_all emplaced no_headers)
    /\ Forall clean_entry emplaced.
Proof.
  intros Hs. exists (header_entries block). split.
  - unfold prepare_headers. now apply header_loop_entries.
  - apply header_entries_clean.
Qed.

Lemma parsed_entries_are_clean_witness :
  exists emplaced,
    prepare_headers (H := Multimap) ("  X-A :  1 " ++ String "010" "nothing")
    = Return (emplace_all emplaced no_headers)
    /\ Forall clean_entry emplaced.
Proof.
  apply (parsed_entries_are_clean (H := Multimap)
           ("  X-A :  1 " ++ String "010" "nothing")).
  reflexivity.
Defined.

Lemma trim_leading_keeps_last (s : string) (c : ascii) :
  is_blank c = false ->
  trim_leading (s ++ String c "") = (trim_leading s ++ String c "")%string.
Proof.
  intros Hc. induction s as [|a r IH]; cbn [append trim_leading].
  - now rewrite Hc.
  - destruct (is_blank a); [exact IH | reflexivity].
Qed.

Lemma trim_trailing_keeps_last (s : string) (c : ascii) :
  is_blank c = false ->
  trim_trailing (s ++ String c "") = (s ++ String c "")%string.
Proof.
  intros Hc. induction s as [|a r IH]; cbn [append trim_trailing].
  - now rewrite Hc.
  - rewrite IH. now destruct r.
Qed.

(** X13: only spaces and tabs are trimmed, so a line that ends in a
    carriage return before its newline keeps it: the value is the text after
    the colon without its leading blanks, blanks before the carriage return
    included, followed by the carriage return. *)
Theorem carriage_return_stays_in_value {H : Type} `{HeaderContainer H}
    (name value : string) :
  size (name ++ ":" ++ value ++ String "013" (String "010" "")) < npos ->
  mem ":" name = false ->
  mem "010" name = false ->
  mem "010" value = false ->
  prepare_headers (H := H) (name ++ ":" ++ value ++ String "013" (String "010" ""))
  = Return (emplace (trim_trailing (trim_leading name))
              (trim_leading value ++ String "013" "") no_headers).
Proof.
  intros Hs Hk Hnk Hnv. unfold prepare_headers.
  rewrite (header_loop_entries _ _ Hs).
  replace (name ++ ":" ++ value ++ String "013" (String "010" ""))%string
    with ((name ++ String ":" (value ++ String "013" "")) ++ String "010" "")%string
    by (rewrite (app_assoc_str name); cbn [append];
        now rewrite (app_assoc_str value)).
  rewrite header_entries_app.
  rewrite (header_entries_single name (value ++ String "013" "") Hk Hnk)
    by (rewrite mem_app; cbn [mem]; now rewrite Hnv).
  unfold spec_trim at 2.
  rewrite trim_leading_keeps_last, trim_trailing_keeps_last by reflexivity.
  reflexivity.
Qed.

Lemma carriage_return_stays_in_value_witness :
  prepare_headers (H := Multimap)
    ("Accept" ++ ":" ++ " text/plain " ++ String "013" (String "010" ""))
  = Return (emplace (trim_trailing (trim_leading "Accept"))
              (trim_leading " text/plain " ++ String "013" "") no_headers).
Proof.
  apply (carriage_return_stays_in_value (H := Multimap) "Accept" " text/plain ");
    reflexivity.
Defined.

(** ** Error messages *)

(** X14: the message of a raised error tells whether a response was
    received: it starts with ["HTTP GET error: "] (["HTTP POST error: "])
    exactly when there was one, and with ["HTTP GET request failed. "]
    (["HTTP POST request failed. "]) exactly when there was none, whatever
    the reason phrase of the server. *)
Theorem error_message_tells_the_class {World H : Type} `{HeaderContainer H}
    (transport : Client -> Request H -> World -> Result * World)
    (url headers body : string) (w : World) :
  exists client path header_map,
    SetupHttpClient url = Return (client, path)
    /\ prepare_headers headers = Return header_map
    /\ let got := transport client (Get (c_str path)) w in
       let posted := transport client
                       (Post (c_str path) header_map body "application/json") w in
       (forall msg,
           fst (HTTPGetRequestFunction transport url w) = Throw (runtime_error msg) ->
           prefix "HTTP GET error: " msg
           = match res_response (fst got) with Some _ => true | None => false end
           /\ prefix "HTTP GET request failed. " msg
              = match res_response (fst got) with Some _ => false | None => true end)
       /\ (forall msg,
              fst (HTTPPostRequestFunction transport url headers body w)
              = Throw (runtime_error msg) ->
              prefix "HTTP POST error: " msg
              = match res_response (fst posted) with
                | Some _ => true
                | None => false
                end
              /\ prefix "HTTP POST request failed. " msg
                 = match res_response (fst posted) with
                   | Some _ => false
                   | None => true
                   end).
Proof.
  destruct (SetupHttpClient_Return url) as (domain & path & Hd & Hs).
  destruct (http_get_run transport url w) as (domain1 & path1 & Hd1 & Hget).
  destruct (http_post_run transport url headers body w)
    as (domain2 & path2 & header_map & Hd2 & Hh & Hpost).
  rewrite Hd in Hd1, Hd2. injection Hd1 as <- <-. injection Hd2 as <- <-.
  eexists. exists path, header_map.
  split; [exact Hs|]. split; [exact Hh|].
  cbv zeta in *. split.
  - intros msg. rewrite Hget. clear Hget Hpost. cbn [fst].
    destruct (res_response _) as [r|].
    + destruct (Response.status r =? 200); [discriminate|].
      intros [= <-].
      split; [apply prefix_app; eexists; reflexivity | reflexivity].
    + intros [= <-].
      split; [reflexivity | apply prefix_app; eexists; reflexivity].
  - intros msg. rewrite Hpost. clear Hget Hpost. cbn [fst].
    destruct (res_response _) as [r|].
    + destruct (Response.status r =? 200); [discriminate|].
      intros [= <-].
      split; [apply prefix_app; eexists; reflexivity | reflexivity].
    + intros [= <-].
      split; [reflexivity | apply prefix_app; eexists; reflexivity].
Qed.

Lemma digits_no_space (d : Decimal.uint) :
  mem " " (NilEmpty.string_of_uint d) = false.
Proof.
  induction d; cbn [NilEmpty.string_of_uint mem]; try rewrite IHd; reflexivity.
Qed.

Lemma to_string_no_space (n : Z) : mem " " (to_string n) = false.
Proof.
  unfold to_string.
  assert (forall d, mem " " (NilZero.string_of_uint d) = false) as Hu.
  { intros d. unfold NilZero.string_of_uint.
    destruct d; try reflexivity; apply digits_no_space. }
  destruct (Z.to_int n) as [d|d]; cbn [NilZero.string_of_int mem].
  - apply Hu.
  - now rewrite Hu.
Qed.

Lemma to_string_inj (a b : Z) : to_string a = to_string b -> a = b.
Proof.
  unfold to_string. intros Heq.
  assert (forall n, NilZero.int_of_string (NilZero.string_of_int (Z.to_int n))
                    = Some (Z.to_int n)) as Hisi.
  { intros n. apply NilZero.isi; destruct n; cbn [Z.to_int];
      try discriminate; intros [= Hn]; now apply DecimalPos.Unsigned.to_uint_nonnil in Hn. }
  apply DecimalZ.to_int_inj.
  pose proof (Hisi a) as Ha. rewrite Heq, Hisi in Ha. now injection Ha.
Qed.

Lemma split_at_first_space (x y s t : string) :
  mem " " x = false ->
  mem " " y = false ->
  (x ++ String " " s)%string = (y ++ String " " t)%string ->
  x = y /\ s = t.
Proof.
  revert y; induction x as [|a x IH]; intros [|b y] Hx Hy Heq;
    cbn [append mem] in *.
  - injection Heq as ->. now split.
  - injection Heq as <- _. now rewrite Ascii.eqb_refl in Hy.
  - injection Heq as -> _. now rewrite Ascii.eqb_refl in Hx.
  - injection Heq as -> Heq.
    apply orb_false_iff in Hx as [_ Hx]. apply orb_false_iff in Hy as [_ Hy].
    destruct (IH y Hx Hy Heq) as [-> ->]. now split.
Qed.

(** X15: the status code and the reason phrase can be read back from the
    message of a status error: two responses with a status other than 200
    raise the same error only if they have the same status and the same
    reason phrase. *)
Theorem status_error_determines_status_and_reason {World H : Type}
    (url : string) (w : World) (r1 r2 : Response.t) :
  Response.status r1 <> 200 ->
  Response.status r2 <> 200 ->
  fst (HTTPGetRequestFunction (H := H) (answering r1) url w)
  = fst (HTTPGetRequestFunction (H := H) (answering r2) url w) ->
  Response.status r1 = Response.status r2
  /\ Response.reason r1 = Response.reason r2.
Proof.
  intros H1 H2.
  destruct (http_get_run (H := H) (answering r1) url w)
    as (domain1 & path1 & _ & Hrun1).
  destruct (http_get_run (H := H) (answering r2) url w)
    as (domain2 & path2 & _ & Hrun2).
  cbv zeta in Hrun1, Hrun2. rewrite Hrun1, Hrun2.
  cbn [answering fst res_response].
  apply Z.eqb_neq in H1, H2. rewrite H1, H2.
  intros [= Heq].
  destruct (split_at_first_space _ _ _ _
              (to_string_no_space _) (to_string_no_space _) Heq) as [Hs Hr].
  split; [now apply to_string_inj | now injection Hr].
Qed.

Lemma status_error_determines_status_and_reason_witness :
  Response.status (Response.mk 404 "Not Found" "") = Response.status (Response.mk 404 "Not Found" "gone")
  /\ Response.reason (Response.mk 404 "Not Found" "")
     = Response.reason (Response.mk 404 "Not Found" "gone").
Proof.
  apply (status_error_determines_status_and_reason (World := unit) (H := Multimap)
           "http://host/x" tt
           (Response.mk 404 "Not Found" "") (Response.mk 404 "Not Found" "gone")).
  - simpl. lia.
  - simpl. lia.
  - reflexivity.
Defined.

(** ** The earlier version agrees with the final one *)

Section DraftRun.

Context {World H : Type} `{HeaderContainer H}.
Variable transport : Client -> Request H -> World -> Result * World.

Lemma draft_get_run (input : string) (w : World) :
  exists domain path,
    decompose input = Return (domain, path)
    /\ let client := set_follow_location true
                       (set_read_timeout 10 0 (Client_new (c_str domain))) in
       let reply := transport client (Get (c_str path)) w in
       Draft.HTTPGetRequestFunction transport input w
       = (match res_response (fst reply) with
          | Some r =>
              if Response.status r =? 200 then Return (Response.body r)
              else Throw (runtime_error
                     ("HTTP error: " ++ to_string (Response.status r)
                      ++ " - " ++ Response.reason r))
          | None =>
              Throw (runtime_error
                ("HTTP request failed. " ++ error_text (res_error (fst reply))))
          end, snd reply).
Proof.
  destruct (SetupHttpClient_Return input) as (domain & path & Hd & _).
  exists domain, path. split; [exact Hd|]. cbv zeta.
  unfold Draft.HTTPGetRequestFunction, bind, lift, send.
  change (obind _ _) with (decompose input). rewrite Hd. cbn [fst snd].
  destruct (transport _ _ w) as [res w']. cbn [fst snd].
  destruct (res_response res) as [r|].
  - destruct (Response.status r =? 200); reflexivity.
  - reflexivity.
Qed.

Lemma draft_post_run (url headers body : string) (w : World) :
  exists domain path (header_map : H),
    decompose url = Return (domain, path)
    /\ prepare_headers headers = Return header_map
    /\ let client := set_follow_location true
                       (set_read_timeout 10 0 (Client_new (c_str domain))) in
       let reply := transport client
                      (Post (c_str path) header_map body "application/json") w in
       Draft.HTTPPostRequestFunction transport url headers body w
       = (match res_response (fst reply) with
          | Some r =>
              if Response.status r =? 200 then Return (Response.body r)
              else Throw (runtime_error
                     ("HTTP error: " ++ to_string (Response.status r)
                      ++ " - " ++ Response.reason r))
          | None =>
              Throw (runtime_error
                ("HTTP POST request failed. " ++ error_text (res_error (fst reply))))
          end, snd reply).
Proof.
  destruct (SetupHttpClient_Return url) as (domain & path & Hd & _).
  destruct (prepare_headers_spec (H := H) headers) as (header_map & Hh & _).
  exists domain, path, header_map. split; [exact Hd|]. split; [exact Hh|].
  cbv zeta.
  unfold Draft.HTTPPostRequestFunction, bind, lift, send.
  change (obind _ _) with (decompose url). rewrite Hd. cbn [fst snd].
  change (header_loop _ headers no_headers) with (prepare_headers (H := H) headers).
  rewrite Hh.
  destruct (transport _ _ w) as [res w']. cbn [fst snd].
  destruct (res_response res) as [r|].
  - destruct (Response.status r =? 200); reflexivity.
  - reflexivity.
Qed.

End DraftRun.

(** X16: factoring [SetupHttpClient] and [HandleHttpError] out of the GET
    lambda changed nothing but the wording of the errors: the earlier
    version sends the same request with the same client, leaves the same
    state, returns the same body, and raises in the same cases, its message
    being the final one without [" GET"] after ["HTTP"]. *)
Theorem draft_get_agrees {World H : Type}
    (transport : Client -> Request H -> World -> Result * World)
    (url : string) (w : World) :
  snd (Draft.HTTPGetRequestFunction transport url w)
  = snd (HTTPGetRequestFunction transport url w)
  /\ match fst (HTTPGetRequestFunction transport url w) with
     | Return b => fst (Draft.HTTPGetRequestFunction transport url w) = Return b
     | Throw (runtime_error msg) =>
         exists tail,
           msg = ("HTTP GET" ++ tail)%string
           /\ fst (Draft.HTTPGetRequestFunction transport url w)
              = Throw (runtime_error ("HTTP" ++ tail))
     | Throw (out_of_range _) => False
     end.
Proof.
  destruct (http_get_run transport url w) as (domain & path & Hd & Hrun).
  destruct (draft_get_run transport url w) as (domain' & path' & Hd' & Hdraft).
  rewrite Hd in Hd'. injection Hd' as <- <-.
  cbv zeta in Hrun, Hdraft. rewrite Hrun, Hdraft. cbn [fst snd].
  split; [reflexivity|].
  destruct (res_response _) as [r|].
  - destruct (Response.status r =? 200); [reflexivity|].
    eexists. split; reflexivity.
  - eexists. split; reflexivity.
Qed.

(** X17: the same for the POST lambda: same request, same state, same
    body; the message of a transport failure is the same, and the message
    of a status error is the final one without [" POST"] after ["HTTP"]. *)
Theorem draft_post_agrees {World H : Type} `{HeaderContainer H}
    (transport : Client -> Request H -> World -> Result * World)
    (url headers body : string) (w : World) :
  snd (Draft.HTTPPostRequestFunction transport url headers body w)
  = snd (HTTPPostRequestFunction transport url headers body w)
  /\ match fst (HTTPPostRequestFunction transport url headers body w) with
     | Return b =>
         fst (Draft.HTTPPostRequestFunction transport url headers body w)
         = Return b
     | Throw (runtime_error msg) =>
         (prefix "HTTP POST request failed. " msg = true
          /\ fst (Draft.HTTPPostRequestFunction transport url headers body w)
             = Throw (runtime_error msg))
         \/ (exists tail,
                msg = ("HTTP POST error: " ++ tail)%string
                /\ fst (Draft.HTTPPostRequestFunction transport url headers body w)
                   = Throw (runtime_error ("HTTP error: " ++ tail)))
     | Throw (out_of_range _) => False
     end.
Proof.
  destruct (http_post_run transport url headers body w)
    as (domain & path & header_map & Hd & Hh & Hrun).
  destruct (draft_post_run transport url headers body w)
    as (domain' & path' & header_map' & Hd' & Hh' & Hdraft).
  rewrite Hd in Hd'. injection Hd' as <- <-.
  rewrite Hh in Hh'. injection Hh' as <-.
  cbv zeta in Hrun, Hdraft. rewrite Hrun, Hdraft. cbn [fst snd].
  split; [reflexivity|].
  destruct (res_response _) as [r|].
  - destruct (Response.status r =? 200); [reflexivity|].
    right. eexists. split; reflexivity.
  - left. split; [apply prefix_app; eexists; reflexivity | reflexivity].
Qed.

(** ** Decomposing again *)

Lemma find_npos (s pat : string) :
  size s < npos -> find s pat = npos -> first_occurrence pat s = None.
Proof.
  unfold find. intros Hs Hf.
  destruct (first_occurrence pat s) as [i|] eqn:E; [|reflexivity].
  exfalso. cbn [pos_of] in Hf.
  pose proof (first_occurrence_le _ _ _ E). unfold size in Hs. lia.
Qed.

Lemma decompose_host_and_path (domain tail : string) :
  size (domain ++ String "/" tail) < npos ->
  mem "/" domain = false ->
  find (domain ++ String "/" tail) "://" = npos ->
  decompose (domain ++ String "/" tail) = Return (domain, String "/" tail).
Proof.
  intros Hs Hd Hf.
  destruct (decompose_stages (domain ++ String "/" tail))
    as (rest & domain' & path' & -> & _ & Hst).
  destruct (Hst Hs) as [H1 H2]. clear Hst.
  rewrite (find_npos _ _ Hs Hf) in H1. subst rest.
  pose proof (first_occurrence_after "/" "" domain tail Hd) as Hfo.
  change ("/" ++ tail)%string with (String "/" tail) in Hfo.
  rewrite Hfo in H2. destruct H2 as [-> ->].
  now rewrite take_app_length, drop_app_length.
Qed.

(** X18: decomposing is idempotent as long as no ["://"] is left: the host
    followed by the path of a URL decomposes into that same host and path,
    provided [find] sees no ["://"] in it. Any string a [std::string] can
    hold is shorter than [npos]. *)
Theorem decompose_is_idempotent (url domain path : string) :
  size url < npos ->
  size (domain ++ path) < npos ->
  decompose url = Return (domain, path) ->
  find (domain ++ path) "://" = npos ->
  decompose (domain ++ path) = Return (domain, path).
Proof.
  intros Hs Hs' Hd Hf.
  destruct (decompose_stages url)
    as (rest & domain' & path' & Hd' & [tail Htail] & Hst).
  rewrite Hd in Hd'. injection Hd' as <- <-. subst path.
  destruct (Hst Hs) as [_ H2]. clear Hst.
  apply decompose_host_and_path; [exact Hs' | | exact Hf].
  pose proof (first_occurrence_char "/" rest) as Hc.
  destruct (first_occurrence "/" rest) as [j|].
  - destruct H2 as [-> _]. apply Hc.
  - destruct H2 as [-> _]. exact Hc.
Qed.

Lemma decompose_is_idempotent_witness :
  decompose ("host:8080" ++ "/a/b") = Return ("host:8080", "/a/b").
Proof.
  apply (decompose_is_idempotent "http://host:8080/a/b" "host:8080" "/a/b");
    reflexivity.
Defined.

(** X19: a URL without any ['/'] is taken whole as the host, a query string
    included, and the path is ["/"]. *)
Theorem url_without_slash_is_all_host (url : string) :
  mem "/" url = false ->
  decompose url = Return (url, "/")
  /\ exists client,
       SetupHttpClient url = Return (client, "/") /\ host client = c_str url.
Proof.
  intros Hm.
  assert (decompose url = Return (url, "/")) as Hd.
  { unfold decompose, find.
    assert (first_occurrence "://" url = None) as ->.
    { destruct (first_occurrence "://" url) as [i|] eqn:E; [|reflexivity].
      exfalso. apply first_occurrence_Some in E as [(pre & post & Hu & _) _].
      rewrite Hu, !mem_app in Hm. cbn [mem] in Hm.
      change (Ascii.eqb "/" "/") with true in Hm.
      change (Ascii.eqb "/" ":") with false in Hm.
      cbn [orb] in Hm. now rewrite orb_true_r in Hm. }
    cbn [pos_of]. rewrite Z.eqb_refl. cbn [negb obind].
    rewrite (first_occurrence_char_None "/" url Hm).
    cbn [pos_of]. now rewrite Z.eqb_refl. }
  split; [exact Hd|].
  eexists. unfold SetupHttpClient. rewrite Hd. cbn [obind fst snd].
  split; reflexivity.
Qed.

Lemma url_without_slash_is_all_host_witness :
  decompose "example.com?x=1" = Return ("example.com?x=1", "/")
  /\ exists client,
       SetupHttpClient "example.com?x=1" = Return (client, "/")
       /\ host client = c_str "example.com?x=1".
Proof. apply (url_without_slash_is_all_host "example.com?x=1"). reflexivity. Defined.
